(** * HiklQQBot CXServer plugin: binding registry and status report

    A shallow embedding of [BindServer.py] (the per-group registry of server
    bindings, kept in one text file per group) and of [CXServerAPI.py] (the
    query command: read the bindings, ask the remote status service once per
    target, render a text report), followed by the properties proved of them.

    Conventions of the embedding:
    - a Python [str] is a list of Unicode code points ([list N]);
    - the file system is a finite map from path to the decoded text of the
      file; directories and I/O failures are outside the model;
    - the remote status service is an oracle giving the outcome of the n-th
      request of a command; the requests issued are logged in the world;
    - a Python exception raised inside a modelled function is a value of the
      left summand of [result]. *)

From Stdlib Require Import NArith ZArith List Ascii String Lia.
From Stdlib Require Import DecimalString.
From stdpp Require Import base option list sorting gmap.

Local Open Scope N_scope.

(** ** Python strings *)

Module Py.

Abbreviation char := N.
Abbreviation str := (list N).

(** [str.isspace] on one code point: the white space of [str.split()] and
    [str.strip()] without arguments. *)
Definition is_space (c : char) : bool :=
  ((9 <=? c) && (c <=? 13)) || ((28 <=? c) && (c <=? 32))
  || (c =? 133) || (c =? 160) || (c =? 5760)
  || ((8192 <=? c) && (c <=? 8202))
  || (c =? 8232) || (c =? 8233) || (c =? 8239) || (c =? 8287) || (c =? 12288).

Definition LF : char := 10.
Definition CR : char := 13.
Definition SP : char := 32.

(** [s.split()]: maximal runs of non-space characters; [cur] is the run
    being read. *)
Fixpoint split_from (cur : str) (s : str) : list str :=
  match s with
  | [] => match cur with [] => [] | _ => [cur] end
  | c :: s' =>
      if is_space c
      then match cur with [] => split_from [] s' | _ => cur :: split_from [] s' end
      else split_from (cur ++ [c]) s'
  end.

Definition split (s : str) : list str := split_from [] s.

Fixpoint lstrip (s : str) : str :=
  match s with
  | c :: s' => if is_space c then lstrip s' else s
  | [] => []
  end.

(** [s.strip()] *)
Definition strip (s : str) : str := rev (lstrip (rev (lstrip s))).

(** [sep.join(parts)] *)
Fixpoint join (sep : str) (parts : list str) : str :=
  match parts with
  | [] => []
  | [p] => p
  | p :: rest => p ++ sep ++ join sep rest
  end.

(** Iterating a file opened in text mode (universal newlines): each line
    keeps its terminator, read as a line feed whether the file has a line
    feed, a carriage return or both; a last line may be unterminated.
    [after_cr] tells that the previous character was a carriage return, so
    that a line feed now belongs to the line already ended. *)
Fixpoint lines_from (after_cr : bool) (cur : str) (s : str) : list str :=
  match s with
  | [] => match cur with [] => [] | _ => [cur] end
  | c :: s' =>
      if c =? LF then
        if after_cr then lines_from false cur s'
        else (cur ++ [LF]) :: lines_from false [] s'
      else if c =? CR then (cur ++ [LF]) :: lines_from true [] s'
      else lines_from false (cur ++ [c]) s'
  end.

Definition readlines (text : str) : list str := lines_from false [] text.

(** UTF-8 decoding with [errors='ignore']: an ill-formed sequence is dropped
    up to the byte that breaks it, and decoding resumes at that byte. [need]
    continuation bytes are still expected for the code point accumulated in
    [acc]; the next one must lie between [lo] and [hi]. *)
Fixpoint utf8_from (need : nat) (acc lo hi : N) (bs : list N) : str :=
  match bs with
  | [] => []
  | b :: bs' =>
      let continues :=
        match need with
        | S k => if (lo <=? b) && (b <=? hi) then Some k else None
        | O => None
        end in
      match continues with
      | Some k =>
          let acc' := acc * 64 + (b - 128) in
          match k with
          | O => acc' :: utf8_from 0 0 0 0 bs'
          | S _ => utf8_from k acc' 128 191 bs'
          end
      | None =>
          if b <? 128 then b :: utf8_from 0 0 0 0 bs'
          else if (194 <=? b) && (b <=? 223) then utf8_from 1 (b - 192) 128 191 bs'
          else if b =? 224 then utf8_from 2 (b - 224) 160 191 bs'
          else if b =? 237 then utf8_from 2 (b - 224) 128 159 bs'
          else if (225 <=? b) && (b <=? 239) then utf8_from 2 (b - 224) 128 191 bs'
          else if b =? 240 then utf8_from 3 (b - 240) 144 191 bs'
          else if (241 <=? b) && (b <=? 243) then utf8_from 3 (b - 240) 128 191 bs'
          else if b =? 244 then utf8_from 3 (b - 240) 128 143 bs'
          else utf8_from 0 0 0 0 bs'
      end
  end.

Definition utf8_decode_ignore (bs : list N) : str := utf8_from 0 0 0 0 bs.

(** A string literal of this file, read as the Python literal of the same
    text: the literal holds the UTF-8 bytes. *)
Definition u (s : string) : str :=
  utf8_decode_ignore (map N_of_ascii (list_ascii_of_string s)).

(** [str(n)] for an [int]. *)
Definition str_of_int (z : Z) : str :=
  map N_of_ascii (list_ascii_of_string (NilZero.string_of_int (Z.to_int z))).

(** [f"{j:2d}"]: decimal, right-aligned in a field of two. *)
Definition format_2d (z : Z) : str :=
  let digits := str_of_int z in
  repeat SP (2 - length digits) ++ digits.

(** A field as the command parser hands it over, one item of
    [params.strip().split()]: not empty, no white space. *)
Definition is_token (t : str) : bool :=
  match t with
  | [] => false
  | _ => forallb (fun c => negb (is_space c)) t
  end.

(** [if port:] for an argument that is [None] or a [str]. *)
Definition given (port : option str) : bool :=
  match port with
  | Some (_ :: _) => true
  | _ => false
  end.

(** Exceptions the modelled code can meet, and their class names. *)
Inductive exn :=
| AttributeError | TypeError | ValueError | BinasciiError
| OtherError (class_name : str).

Definition exn_name (e : exn) : str :=
  match e with
  | AttributeError => u "AttributeError"
  | TypeError => u "TypeError"
  | ValueError => u "ValueError"
  | BinasciiError => u "Error"
  | OtherError n => n
  end.

Definition result (A : Type) : Type := exn + A.
Definition ret {A} (a : A) : result A := inr a.
Definition raise {A} (e : exn) : result A := inl e.
Definition bind {A B} (m : result A) (f : A -> result B) : result B :=
  match m with inl e => inl e | inr a => f a end.

End Py.

Notation "x <- m ;; k" := (Py.bind m (fun x => k))
  (at level 100, m at next level, right associativity).

(** ** [base64.b64decode] *)

Module Base64.
Import Py.

(** Value of a character of the alphabet, [None] outside it. *)
Definition sextet (c : N) : option N :=
  if (65 <=? c) && (c <=? 90) then Some (c - 65)
  else if (97 <=? c) && (c <=? 122) then Some (c - 97 + 26)
  else if (48 <=? c) && (c <=? 57) then Some (c - 48 + 52)
  else if c =? 43 then Some 62
  else if c =? 47 then Some 63
  else None.

(** [binascii.a2b_base64] in its default, lenient mode: characters outside
    the alphabet are skipped; a pad that completes a quad ends the input;
    input that stops inside a quad is an error. [quad_pos] counts the
    characters of the current quad, [leftchar] holds its pending bits,
    [pads] the pads just seen. *)
Fixpoint a2b (quad_pos : nat) (leftchar : N) (pads : nat) (s : list N)
  : result (list N) :=
  match s with
  | [] => match quad_pos with O => ret [] | _ => raise BinasciiError end
  | c :: s' =>
      if c =? 61 then
        if (2 <=? quad_pos)%nat && (4 <=? quad_pos + S pads)%nat then ret []
        else a2b quad_pos leftchar
               (if (2 <=? quad_pos)%nat then S pads else pads) s'
      else
        match sextet c with
        | None => a2b quad_pos leftchar pads s'
        | Some v =>
            match quad_pos with
            | 0%nat => a2b 1 v 0 s'
            | 1%nat => out <- a2b 2 (v mod 16) 0 s' ;;
                       ret ((leftchar * 4 + v / 16) :: out)
            | 2%nat => out <- a2b 3 (v mod 4) 0 s' ;;
                       ret ((leftchar * 16 + v / 4) :: out)
            | _ => out <- a2b 0 0 0 s' ;;
                   ret ((leftchar * 64 + v) :: out)
            end
        end
  end.

(** [base64.b64decode(s)] for a [str] argument: the text must be ASCII. *)
Definition b64decode (s : str) : result (list N) :=
  if forallb (fun c => c <? 128) s then a2b 0 0 0 s else raise ValueError.

End Base64.

(** ** Regular expressions, as far as [tag_regex] needs them *)

Module Re.
Import Py.

Inductive regex :=
| Lit (c : char)
| Cat (r1 r2 : regex)
| Alt (r1 r2 : regex)
| Opt (r : regex)
| Plus (class : char -> bool).

(** Greedy repetition of a character class, giving characters back one by
    one while the rest of the pattern ([k]) fails. *)
Fixpoint more (class : char -> bool) (s : str) (k : str -> option str)
  : option str :=
  match s with
  | c :: s' =>
      if class c
      then match more class s' k with Some r => Some r | None => k s end
      else k s
  | [] => k s
  end.

(** Backtracking match of [r] at the head of [s]; [k] matches what follows
    and returns the input left after the whole match. *)
Fixpoint match_at (r : regex) (s : str) (k : str -> option str) : option str :=
  match r with
  | Lit c => match s with
             | c' :: s' => if c' =? c then k s' else None
             | [] => None
             end
  | Cat r1 r2 => match_at r1 s (fun s' => match_at r2 s' k)
  | Alt r1 r2 => match match_at r1 s k with
                 | Some rest => Some rest
                 | None => match_at r2 s k
                 end
  | Opt r1 => match match_at r1 s k with
              | Some rest => Some rest
              | None => k s
              end
  | Plus class => match s with
                  | c :: s' => if class c then more class s' k else None
                  | [] => None
                  end
  end.

(** [pattern.sub('', s)]: every leftmost match is deleted; [skip] counts the
    characters of the current match still to be dropped. *)
Fixpoint sub_from (r : regex) (skip : nat) (s : str) : str :=
  match s with
  | [] => []
  | c :: s' =>
      match skip with
      | S n => sub_from r n s'
      | O =>
          match match_at r s Some with
          | Some rest =>
              match (length s - length rest)%nat with
              | S n => sub_from r n s'
              | O => c :: sub_from r 0 s'
              end
          | None => c :: sub_from r 0 s'
          end
      end
  end.

Definition sub_empty (r : regex) (s : str) : str := sub_from r 0 s.

End Re.

(** ** JSON values, as [json.loads] returns them *)

Module Json.
Import Py.

#[local] Set Warnings "-register-all".

(** A [float] is kept as the two things the plugin can observe of it: its
    [str()] text and its truth value. *)
Record pyfloat := { float_str : str; float_true : bool }.

(** A [dict] is the list of its items in insertion order; lookup takes the
    first item with the key. *)
Inductive value :=
| Null
| Bool (b : bool)
| Int (z : Z)
| Float (f : pyfloat)
| Str (s : str)
| Arr (items : list value)
| Obj (fields : list (str * value)).

Abbreviation dict := (list (str * value)).

Fixpoint lookup_key (k : str) (d : dict) : option value :=
  match d with
  | [] => None
  | (k', v) :: d' => if bool_decide (k' = k) then Some v else lookup_key k d'
  end.

(** [d.get(k, default)] *)
Definition get (d : dict) (k : str) (default : value) : value :=
  match lookup_key k d with Some v => v | None => default end.

(** [bool(v)] *)
Definition truthy (v : value) : bool :=
  match v with
  | Null => false
  | Bool b => b
  | Int z => negb (z =? 0)%Z
  | Float f => float_true f
  | Str s => match s with [] => false | _ => true end
  | Arr l => match l with [] => false | _ => true end
  | Obj l => match l with [] => false | _ => true end
  end.

Definition hex_digit (n : N) : char := if n <? 10 then 48 + n else 87 + n.

Fixpoint hex_digits (width : nat) (n : N) : str :=
  match width with
  | O => []
  | S w => hex_digits w (n / 16) ++ [hex_digit (n mod 16)]
  end.

(** [str.isprintable] on one code point. Exact up to U+00FF; above, the
    separators, surrogates and private-use code points are taken as not
    printable and every other code point as printable, which leaves out the
    unassigned and format code points of the Unicode tables. *)
Definition is_printable (c : char) : bool :=
  if c <? 32 then false
  else if c <? 127 then true
  else if c <? 161 then false
  else if c =? 173 then false
  else negb (is_space c
             || ((55296 <=? c) && (c <=? 63743))
             || (1114111 <? c)).

Definition repr_char (quote : char) (c : char) : str :=
  if (c =? quote) || (c =? 92) then [92; c]
  else if c =? 9 then u "\t"
  else if c =? 10 then u "\n"
  else if c =? 13 then u "\r"
  else if is_printable c then [c]
  else if c <? 256 then u "\x" ++ hex_digits 2 c
  else if c <? 65536 then u "\u" ++ hex_digits 4 c
  else u "\U" ++ hex_digits 8 c.

(** [repr(s)] for a [str]: single quotes unless the text has a single quote
    and no double quote. *)
Definition repr_str (s : str) : str :=
  let quote : char :=
    if existsb (N.eqb 39) s && negb (existsb (N.eqb 34) s) then 34 else 39 in
  [quote] ++ concat (map (repr_char quote) s) ++ [quote].

Fixpoint repr (v : value) : str :=
  match v with
  | Null => u "None"
  | Bool true => u "True"
  | Bool false => u "False"
  | Int z => str_of_int z
  | Float f => float_str f
  | Str s => repr_str s
  | Arr items => u "[" ++ join (u ", ") (map repr items) ++ u "]"
  | Obj fields =>
      u "{"
      ++ join (u ", ")
           (map (fun kv => match kv with
                           | (k, x) => repr_str k ++ u ": " ++ repr x
                           end) fields)
      ++ u "}"
  end.

(** [str(v)], which is also what an f-string field [{v}] shows. *)
Definition to_str (v : value) : str :=
  match v with
  | Str s => s
  | _ => repr v
  end.

End Json.

(** ** [BindServer.py]: the registry of bindings *)

Module BindServer.
Import Py.

Definition save_dir : str := u "ServerBindQQqun".

(** [os.path.join(a, b)] on a POSIX system. *)
Definition path_join (a b : str) : str :=
  match b with
  | 47 :: _ => b
  | _ => match last a with
         | None => b
         | Some c => if c =? 47 then a ++ b else a ++ [47] ++ b
         end
  end.

(** [os.path.join(self.save_dir, f"{group_id}.txt")] *)
Definition file_path (group_id : str) : str :=
  path_join save_dir (group_id ++ u ".txt").

(** The loop of [_load_servers] over the lines of the file; [servers] is the
    list built so far. *)
Fixpoint load_lines (lines : list str) (servers : list (list str))
  : list (list str) :=
  match lines with
  | [] => servers
  | line :: rest =>
      let line := strip line in
      match line with
      | [] => load_lines rest servers
      | _ =>
          let parts := split line in
          if (2 <=? length parts)%nat
          then load_lines rest (servers ++ [parts])
          else load_lines rest servers
      end
  end.

Definition _load_servers (fs : gmap str str) (group_id : str)
  : list (list str) :=
  match fs !! file_path group_id with
  | None => []
  | Some text => load_lines (readlines text) []
  end.

(** [record[0] == server_key and record[1] == account_id]; a loaded record
    has at least two fields. *)
Definition same_identity (server_key account_id : str) (record : list str)
  : Prop :=
  record !! 0%nat = Some server_key /\ record !! 1%nat = Some account_id.

#[global] Instance same_identity_dec k a r : Decision (same_identity k a r).
Proof. unfold same_identity. apply _. Defined.

(** The search loop of [_add_server], which returns at the first match. *)
Fixpoint already_bound (server_key account_id : str)
    (servers : list (list str)) : bool :=
  match servers with
  | [] => false
  | record :: rest =>
      if bool_decide (same_identity server_key account_id record) then true
      else already_bound server_key account_id rest
  end.

Definition msg_exists : str := u "ℹ️ 该服务器信息已存在".

Definition msg_added (server_key account_id : str) (port : option str) : str :=
  let response :=
    u "✅ 已添加服务器" ++ [LF] ++ u "Key: " ++ server_key ++ [LF]
    ++ u "AccountID: " ++ account_id in
  match port with
  | Some (c :: p) => response ++ [LF] ++ u "Port: " ++ (c :: p)
  | _ => response
  end.

(** Opening in mode ['a'] and writing [record]: the file is created when it
    is missing. *)
Definition append_file (fs : gmap str str) (path record : str)
  : gmap str str :=
  <[path := default [] (fs !! path) ++ record]> fs.

Definition _add_server (fs : gmap str str)
    (group_id server_key account_id : str) (port : option str)
  : str * gmap str str :=
  let servers := _load_servers fs group_id in
  if already_bound server_key account_id servers then (msg_exists, fs)
  else
    let record := server_key ++ u " " ++ account_id in
    let record :=
      match port with
      | Some (c :: p) => record ++ u " " ++ (c :: p)
      | _ => record
      end in
    let record := record ++ [LF] in
    (msg_added server_key account_id port,
     append_file fs (file_path group_id) record).

Definition msg_not_found : str := u "ℹ️ 未找到匹配的服务器信息".

Definition msg_removed (server_key account_id : str) : str :=
  u "✅ 已移除服务器" ++ [LF] ++ u "Key: " ++ server_key ++ [LF]
  ++ u "AccountID: " ++ account_id.

(** The text written back by [_remove_server]: one line per record. *)
Fixpoint write_records (records : list (list str)) : str :=
  match records with
  | [] => []
  | record :: rest => (join (u " ") record ++ [LF]) ++ write_records rest
  end.

Definition _remove_server (fs : gmap str str)
    (group_id server_key account_id : str) : str * gmap str str :=
  let servers := _load_servers fs group_id in
  let new_servers :=
    filter (fun r => r !! 0%nat <> Some server_key
                     \/ r !! 1%nat <> Some account_id) servers in
  if (length new_servers =? length servers)%nat then (msg_not_found, fs)
  else
    (msg_removed server_key account_id,
     <[file_path group_id := write_records new_servers]> fs).

Definition _check_server (fs : gmap str str)
    (group_id server_key account_id : str) : str :=
  let servers := _load_servers fs group_id in
  let exists_ :=
    existsb (fun r => bool_decide (same_identity server_key account_id r))
      servers in
  (if exists_ then u "🟢 服务器存在" else u "🔴 服务器不存在")
  ++ [LF] ++ u "Key: " ++ server_key ++ [LF] ++ u "AccountID: " ++ account_id.

(** [_get_usage_help] *)
Definition _get_usage_help : str :=
  u "SCPSL服务器绑定命令使用指南：" ++ [LF]
  ++ u "<1>添加服务器：/绑定服务器 Add <serverKey> <accountId> [Port(可选)]" ++ [LF]
  ++ u "<2>移除服务器：/绑定服务器 Remove <serverKey> <accountId>" ++ [LF]
  ++ u "<3>检查服务器：/绑定服务器 Check <serverKey> <accountId>" ++ [LF].

Definition msg_denied : str := u "权限不足，此命令仅限管理员使用".

Definition msg_add_format : str :=
  u "⚠️ 参数错误！格式：/绑定服务器 Add serverKey accountId [Port]".

Definition msg_remove_format : str :=
  u "⚠️ 参数错误！格式：/绑定服务器 Remove serverKey accountId".

Definition msg_check_format : str :=
  u "⚠️ 参数错误！格式：/绑定服务器 Check serverKey accountId".

(** [handle]: the command of the registry. The check of the caller
    ([auth_manager.is_admin]) and [str.lower] are taken as given: the first
    belongs to the host, the second is used on the first word only, to
    compare it with the three modes. [user_id] may be [None]. *)
Definition handle (is_admin : option str -> bool) (lower : str -> str)
    (fs : gmap str str) (params : str) (user_id : option str)
    (group_openid : str) : str * gmap str str :=
  if negb (is_admin user_id) then (msg_denied, fs)
  else
    let parts := split (strip params) in
    match parts with
    | [] => (_get_usage_help, fs)
    | first :: _ =>
        let mode := lower first in
        if bool_decide (mode = u "add") then
          match parts with
          | _ :: server_key :: account_id :: more =>
              _add_server fs group_openid server_key account_id (head more)
          | _ => (msg_add_format, fs)
          end
        else if bool_decide (mode = u "remove") then
          match parts with
          | [_; server_key; account_id] =>
              _remove_server fs group_openid server_key account_id
          | _ => (msg_remove_format, fs)
          end
        else if bool_decide (mode = u "check") then
          match parts with
          | [_; server_key; account_id] =>
              (_check_server fs group_openid server_key account_id, fs)
          | _ => (msg_check_format, fs)
          end
        else (_get_usage_help, fs)
    end.

End BindServer.

(** ** [CXServerAPI.py]: the query command *)

Module CXServerAPI.
Import Py Json.

(** [self.tag_regex]: the pattern [<[^>]+>|\[\/?[a-z]+\]] compiled with
    [re.IGNORECASE]. Under that flag the class [[a-z]] takes the 52 ASCII
    letters and the four letters that case-fold to one of them. *)
Definition not_gt (c : char) : bool := negb (c =? 62).

Definition az_ignorecase (c : char) : bool :=
  ((97 <=? c) && (c <=? 122)) || ((65 <=? c) && (c <=? 90))
  || (c =? 304) || (c =? 305) || (c =? 383) || (c =? 8490).

Definition tag_regex : Re.regex :=
  Re.Alt
    (Re.Cat (Re.Lit 60) (Re.Cat (Re.Plus not_gt) (Re.Lit 62)))
    (Re.Cat (Re.Lit 91)
       (Re.Cat (Re.Opt (Re.Lit 47))
          (Re.Cat (Re.Plus az_ignorecase) (Re.Lit 93)))).

(** Every exception of the [try] block gives the same placeholder: a value
    that is not text, text that is not ASCII, broken padding. *)
Definition _extract_server_name (info_b64 : value) : str :=
  if negb (truthy info_b64) then u "未知服务器"
  else
    let decoded :=
      match info_b64 with
      | Str s => Base64.b64decode s
      | _ => raise TypeError
      end in
    match decoded with
    | inr raw =>
        let decoded_info := utf8_decode_ignore raw in
        let clean_text := Re.sub_empty tag_regex decoded_info in
        join (u " ") (split clean_text)
    | inl _ => u "名称解析失败"
    end.

(** The flag names appended by the three [if server.get(...)] lines. *)
Definition flag_names (server : dict) : list str :=
  let flags := [] in
  let flags := if truthy (get server (u "FF") Null)
               then flags ++ [u "💥友伤"] else flags in
  let flags := if truthy (get server (u "WL") Null)
               then flags ++ [u "🔒白名单"] else flags in
  let flags := if truthy (get server (u "Modded") Null)
               then flags ++ [u "🛠️模组服"] else flags in
  flags.

(** The loop over [enumerate(players[:10], 1)]: one numbered line per
    player; [.get] on a player that is not an object raises. *)
Definition player_line (j : Z) (player : dict) : str :=
  u "    " ++ format_2d j ++ u ". "
  ++ to_str (get player (u "nickname") (Str (u "未知"))).

Fixpoint roster_lines (j : Z) (players : list value) (info : list str)
  : result (list str) :=
  match players with
  | [] => ret info
  | player :: rest =>
      match player with
      | Obj d => roster_lines (j + 1) rest (info ++ [player_line j d])
      | _ => raise AttributeError
      end
  end.

Definition summary_line (remaining : Z) : str :=
  u "    ...等" ++ str_of_int remaining ++ u "人".

(** [players[:10]] and [len(players)] for a truthy [players]. A number
    cannot be sliced, nor can an object (up to Python 3.11 that is a
    [TypeError] too). *)
Definition first_ten (players : value) : result (list value) :=
  match players with
  | Arr l => ret (take 10 l)
  | Str s => ret (map (fun c => Str [c]) (take 10 s))
  | _ => raise TypeError
  end.

Definition len (players : value) : Z :=
  match players with
  | Arr l => Z.of_nat (length l)
  | Str s => Z.of_nat (length s)
  | Obj d => Z.of_nat (length d)
  | _ => 0
  end.

(** The part of the loop body of [_parse_servers] that shows the players. *)
Definition roster (server : dict) (info : list str) : result (list str) :=
  if truthy (get server (u "Online") Null) then
    let players := get server (u "PlayersList") (Arr []) in
    if truthy players then
      shown <- first_ten players ;;
      info <- roster_lines 1 shown (info ++ [u "  🎮 玩家列表:"]) ;;
      if (10 <? len players)%Z
      then ret (info ++ [summary_line (len players - 10)])
      else ret info
    else ret (info ++ [u "  🏜️ 当前无玩家在线"])
  else ret info.

(** The first line of a block. *)
Definition header_line (i : Z) (account_id : str) : str :=
  u "🖥️ 服务器" ++ str_of_int i ++ u " [" ++ account_id ++ u "]".

(** The lines of a block before the players: the seven fixed lines, and the
    line of flags when a flag is set. *)
Definition info_lines (account_id : str) (i : Z) (server : dict)
    (server_port : str) : list str :=
  let server_name := _extract_server_name (get server (u "Info") (Str [])) in
  let info :=
    [ header_line i account_id;
      u "  🏷️ 名称: " ++ server_name;
      u "  🆔 ID: " ++ to_str (get server (u "ID") (Str (u "未知")));
      u "  🕒 最后在线: " ++ to_str (get server (u "LastOnline") (Str (u "未知")));
      u "  🔌 端口: " ++ server_port;
      u "  📦 版本: " ++ to_str (get server (u "Version") (Str (u "未知")));
      u "  👥 人数: " ++ to_str (get server (u "Players") (Str (u "0/0"))) ] in
  let flags := flag_names server in
  match flags with
  | [] => info
  | _ => info ++ [u "  🏷️ 特性: " ++ join (u " | ") flags]
  end.

(** The loop body of [_parse_servers] for an entry that passed the filter:
    the block of server number [i]. *)
Definition render_block (account_id : str) (i : Z) (server : dict)
    (server_port : str) : result str :=
  info <- roster server (info_lines account_id i server server_port) ;;
  ret (join [LF] info).

(** The loop of [_parse_servers] over [enumerate(servers, 1)]. *)
Fixpoint render_servers (account_id : str) (port : option str) (i : Z)
    (servers : list value) (server_infos : list str) : result (list str) :=
  match servers with
  | [] => ret server_infos
  | server :: rest =>
      match server with
      | Obj d =>
          let server_port := to_str (get d (u "Port") (Str [])) in
          if given port && negb (bool_decide (Some server_port = port))
          then render_servers account_id port (i + 1) rest server_infos
          else
            block <- render_block account_id i d server_port ;;
            render_servers account_id port (i + 1) rest
              (server_infos ++ [block])
      | _ => render_servers account_id port (i + 1) rest server_infos
      end
  end.

(** What a [for] loop iterates over for a truthy JSON value. *)
Definition iterate (v : value) : result (list value) :=
  match v with
  | Arr l => ret l
  | Str s => ret (map (fun c => Str [c]) s)
  | Obj d => ret (map (fun kv => Str (fst kv)) d)
  | _ => raise TypeError
  end.

Definition msg_api_failed (server_key : str) : str :=
  u "🔴 " ++ server_key ++ u " 请求失败(API返回失败)".

Definition msg_no_data (server_key : str) : str :=
  u "🟡 " ++ server_key ++ u " 无服务器数据".

Definition msg_no_port (port : str) : str :=
  u "🟡 未找到端口 " ++ port ++ u " 的服务器数据".

Definition _parse_servers (server_key account_id : str) (data : value)
    (port : option str) : result (list str) :=
  match data with
  | Obj d =>
      if negb (truthy (get d (u "Success") (Bool false)))
      then ret [msg_api_failed server_key]
      else
        let servers := get d (u "Servers") (Arr []) in
        if negb (truthy servers) then ret [msg_no_data server_key]
        else
          entries <- iterate servers ;;
          server_infos <- render_servers account_id port 1 entries [] ;;
          match port, server_infos with
          | Some (c :: p), [] => ret [msg_no_port (c :: p)]
          | _, _ => ret server_infos
          end
  | _ => raise AttributeError
  end.

(** A query target: [(server_key, account_id, port)], the port [None] when
    the stored line has two fields only. *)
Abbreviation target := (str * str * option str)%type.

(** The loop of [handle] over the lines of the group's file; [server_infos]
    is the list of targets built so far. *)
Fixpoint read_infos (lines : list str) (server_infos : list target)
  : list target :=
  match lines with
  | [] => server_infos
  | line :: rest =>
      let line := strip line in
      match line with
      | [] => read_infos rest server_infos
      | _ =>
          match split line with
          | key :: account :: more =>
              let server_info := (key, account, head more) in
              if bool_decide (server_info ∈ server_infos)
              then read_infos rest server_infos
              else read_infos rest (server_infos ++ [server_info])
          | _ => read_infos rest server_infos
          end
      end
  end.

(** The query parameters that vary; the six others are the constant
    ["true"]. *)
Record request := { req_id : str; req_key : str }.

(** What one [session.get] and [resp.text()] with [json.loads] can come to:
    a timeout, another exception (by class name), or a reply with its status
    and its body, parsed or not parseable. *)
Inductive body := BadJson | Parsed (data : value).

Inductive outcome :=
| TimedOut
| Raised (class_name : str)
| Reply (status : Z) (b : body).

(** The remote service: the outcome of the [n]-th request of a command. *)
Definition network := nat -> request -> outcome.

(** The world the command runs in: the files, and the requests sent. *)
Record world := { files : gmap str str; sent : list request }.

Definition msg_http (server_key : str) (status : Z) : str :=
  u "🔴 " ++ server_key ++ u " 请求失败(HTTP " ++ str_of_int status ++ u ")".

Definition msg_bad_json (server_key : str) : str :=
  u "⚠️ " ++ server_key ++ u " 返回数据格式异常".

Definition msg_timeout (server_key : str) : str :=
  u "⏳ " ++ server_key ++ u " 请求超时".

Definition msg_exception (server_key class_name : str) : str :=
  u "⚠️ " ++ server_key ++ u " 查询异常: " ++ class_name.

(** The body of the loop over the targets, after the request: what is added
    to [results] for one outcome. *)
Definition target_results (t : target) (o : outcome) : list str :=
  match t with
  | (server_key, account_id, port) =>
      match o with
      | Reply status b =>
          if negb (status =? 200)%Z then [msg_http server_key status]
          else
            match b with
            | Parsed data =>
                match _parse_servers server_key account_id data port with
                | inr blocks => blocks
                | inl e => [msg_exception server_key (exn_name e)]
                end
            | BadJson => [msg_bad_json server_key]
            end
      | TimedOut => [msg_timeout server_key]
      | Raised class_name => [msg_exception server_key class_name]
      end
  end.

(** The loop of [handle] over the targets: the [n]-th request is sent, and
    its lines are appended to [results]. *)
Fixpoint query_all (net : network) (n : nat) (server_infos : list target)
    (results : list str) (w : world) : list str * world :=
  match server_infos with
  | [] => (results, w)
  | (server_key, account_id, port) :: rest =>
      let params := {| req_id := account_id; req_key := server_key |} in
      let w' := {| files := files w; sent := sent w ++ [params] |} in
      query_all net (S n) rest
        (results ++ target_results (server_key, account_id, port)
                      (net n params))
        w'
  end.

Definition msg_unbound : str :=
  u "⚠️ 本群未绑定服务器" ++ [LF] ++ u "请先使用「/绑定服务器 Add」命令".

Definition msg_empty : str := u "⚠️ 本群绑定的服务器信息为空".

Definition msg_all_failed : str := u "❌ 所有服务器查询失败".

Definition handle (net : network) (group_openid : str) (w : world)
  : str * world :=
  let file_path := BindServer.path_join BindServer.save_dir
                     (group_openid ++ u ".txt") in
  match files w !! file_path with
  | None => (msg_unbound, w)
  | Some text =>
      let server_infos := read_infos (readlines text) [] in
      match server_infos with
      | [] => (msg_empty, w)
      | _ =>
          let '(results, w') := query_all net 0 server_infos [] w in
          (match results with
           | [] => msg_all_failed
           | _ => join [LF; LF] results
           end, w')
      end
  end.

End CXServerAPI.

(** * Vocabulary of the properties *)

Import Py Json.

Definition no_space (t : str) : Prop := Forall (fun c => is_space c = false) t.

Definition no_newline (t : str) : Prop := Forall (fun c => c <> LF /\ c <> CR) t.

(** What a stored record is: two fields or more, each a token. *)
Definition record_ok (r : list str) : Prop :=
  (2 <= length r)%nat /\ Forall (fun t => is_token t = true) r.

(** A file whose last line, if any, ends with a line feed; so are all the
    files that [_add_server] and [_remove_server] write. *)
Definition terminated (text : str) : bool :=
  match last text with
  | None => true
  | Some c => c =? LF
  end.

Definition store_terminated (fs : gmap str str) (group_id : str) : Prop :=
  match fs !! BindServer.file_path group_id with
  | None => True
  | Some text => terminated text = true
  end.

(** The port argument of the Add command: absent, or a token. *)
Definition port_ok (port : option str) : Prop :=
  match port with
  | None => True
  | Some p => is_token p = true
  end.

(** The record a successful Add stores. *)
Definition record_of (server_key account_id : str) (port : option str)
  : list str :=
  server_key :: account_id :: match port with Some p => [p] | None => [] end.

(** A binding as the Add command receives it. *)
Abbreviation binding := (str * str * option str)%type.

Definition binding_ok (b : binding) : Prop :=
  is_token b.1.1 = true /\ is_token b.1.2 = true /\ port_ok b.2.

Definition stored (b : binding) : list str := record_of b.1.1 b.1.2 b.2.

(** Adding the bindings of a list one by one, first to last. *)
Definition add_all (fs : gmap str str) (g : str) (bs : list binding)
  : gmap str str :=
  foldl (fun fs b => (BindServer._add_server fs g b.1.1 b.1.2 b.2).2) fs bs.

(** The query target of a stored record: its first three fields. *)
Definition target_of (r : list str) : option CXServerAPI.target :=
  match r with
  | key :: account :: more => Some (key, account, head more)
  | _ => None
  end.

(** The stored bindings of a group, as the registry loads them. *)
Definition stored_targets (fs : gmap str str) (g : str)
  : list CXServerAPI.target :=
  omap target_of (BindServer._load_servers fs g).

(** Duplicates dropped, the first occurrence of each tuple kept, in the
    order in which the tuples are first seen. *)
Fixpoint first_occurrences (l : list CXServerAPI.target)
  : list CXServerAPI.target :=
  match l with
  | [] => []
  | t :: rest => t :: filter (fun x => x <> t) (first_occurrences rest)
  end.

Definition request_of (t : CXServerAPI.target) : CXServerAPI.request :=
  {| CXServerAPI.req_id := t.1.2; CXServerAPI.req_key := t.1.1 |}.

(** A group with three bindings, and a remote service that times out on the
    first request, answers the second with status 500 and the third with
    status 200 and the JSON value [data]. *)
Definition three_bindings : CXServerAPI.world :=
  {| CXServerAPI.files :=
       {[ BindServer.file_path (u "g") :=
            u "k1 a1" ++ [LF] ++ u "k2 a2" ++ [LF] ++ u "k3 a3" ++ [LF] ]};
     CXServerAPI.sent := [] |}.

Definition three_outcomes (data : value) : CXServerAPI.network :=
  fun n _ =>
    match n with
    | 0%nat => CXServerAPI.TimedOut
    | 1%nat => CXServerAPI.Reply 500 CXServerAPI.BadJson
    | _ => CXServerAPI.Reply 200 (CXServerAPI.Parsed data)
    end.

(** [{"Success": true, "Servers": servers}] *)
Definition response (servers : list value) : value :=
  Obj [(u "Success", Bool true); (u "Servers", Arr servers)].

(** The port of an entry, as text. *)
Definition port_text (server : dict) : str :=
  to_str (get server (u "Port") (Str [])).

(** An entry of [Servers] that the loop renders: an object, and with the
    port of the filter when a filter is given. *)
Definition passes (port : option str) (v : value) : Prop :=
  match v with
  | Obj sd => given port = true -> Some (port_text sd) = port
  | _ => False
  end.

(** [b] is the block of the entry at position [pos] (counted from 0) of
    [servers], when the first entry has number [first]. *)
Definition block_at (account_id : str) (first : Z) (servers : list value)
    (pos : nat) (b : str) : Prop :=
  exists sd, servers !! pos = Some (Obj sd)
    /\ CXServerAPI.render_block account_id (first + Z.of_nat pos) sd
         (port_text sd) = inr b.

(** [blocks] are the blocks of the entries of [servers] that pass the
    filter, one each, in the order of the entries. *)
Definition rendered (account_id : str) (port : option str) (first : Z)
    (servers : list value) (blocks : list str) : Prop :=
  exists positions : list nat,
    StronglySorted lt positions
    /\ (forall pos, pos ∈ positions
                    <-> exists v, servers !! pos = Some v /\ passes port v)
    /\ Forall2 (block_at account_id first servers) positions blocks.

(** The answers of [_check_server]. *)
Definition msg_check (found : bool) (server_key account_id : str) : str :=
  (if found then u "🟢 服务器存在" else u "🔴 服务器不存在")
  ++ [LF] ++ u "Key: " ++ server_key ++ [LF] ++ u "AccountID: " ++ account_id.

(** The identity of a stored record: its first two fields. *)
Definition identity_of (r : list str) : option str * option str :=
  (r !! 0%nat, r !! 1%nat).

(** The state of a group's registry that the commands keep: the file ends
    with a line feed when it has text, and no two records loaded from it
    have the same identity. *)
Definition registry_ok (fs : gmap str str) (g : str) : Prop :=
  store_terminated fs g
  /\ NoDup (identity_of <$> BindServer._load_servers fs g).

(** Lower case of the ASCII letters, for the examples. *)
Definition ascii_lower (s : str) : str :=
  map (fun c => if (65 <=? c) && (c <=? 90) then c + 32 else c) s.

(** Commands of one group run one after the other: each is the text after
    the command word and the caller. *)
Definition run_commands (is_admin : option str -> bool) (lower : str -> str)
    (g : str) (fs : gmap str str) (commands : list (str * option str))
  : gmap str str :=
  foldl (fun fs c => (BindServer.handle is_admin lower fs c.1 c.2 g).2)
    fs commands.

(** * Properties *)

(** ** Splitting, stripping and reading lines *)

Section StringFacts.

Lemma is_token_no_space t : is_token t = true -> t <> [] /\ no_space t.
Proof.
  destruct t as [|c t]; [discriminate|]. intros H. split; [discriminate|].
  unfold is_token in H. apply Is_true_true, forallb_True in H.
  unfold no_space. eapply Forall_impl; [exact H|].
  intros x Hx. simpl in Hx. destruct (is_space x); [contradiction|reflexivity].
Qed.

Lemma no_space_is_token t : t <> [] -> no_space t -> is_token t = true.
Proof.
  intros Hne H. destruct t as [|c t]; [congruence|].
  unfold is_token. apply Is_true_true, forallb_True.
  eapply Forall_impl; [exact H|]. intros x Hx. simpl. rewrite Hx. exact I.
Qed.

Lemma split_from_space_end c s : is_space c = true ->
  forall cur, split_from cur (s ++ [c]) = split_from cur s.
Proof.
  intros Hc. induction s as [|x s IH]; intros cur; simpl.
  - rewrite Hc. destruct cur; reflexivity.
  - destruct (is_space x); [destruct cur|]; rewrite ?IH; reflexivity.
Qed.

Lemma split_lstrip s : split (lstrip s) = split s.
Proof.
  unfold split. induction s as [|c s IH]; simpl; [reflexivity|].
  destruct (is_space c) eqn:Hc; [exact IH|]. simpl. rewrite Hc. reflexivity.
Qed.

Lemma split_rstrip s cur :
  split_from cur (rev (lstrip (rev s))) = split_from cur s.
Proof.
  induction s as [|c s IH] using rev_ind; [reflexivity|].
  rewrite rev_unit. simpl. destruct (is_space c) eqn:Hc.
  - rewrite IH. symmetry. apply split_from_space_end, Hc.
  - simpl. rewrite rev_involutive. reflexivity.
Qed.

Lemma split_strip s : split (strip s) = split s.
Proof.
  unfold strip, split. rewrite split_rstrip. apply split_lstrip.
Qed.

Lemma split_from_no_space t : no_space t ->
  forall cur s, split_from cur (t ++ s) = split_from (cur ++ t) s.
Proof.
  induction 1 as [|c t Hc Ht IH]; intros cur s; simpl.
  - rewrite app_nil_r. reflexivity.
  - rewrite Hc, IH, <- app_assoc. reflexivity.
Qed.

(** The items of a split are tokens. *)
Lemma split_from_tokens s : forall cur, no_space cur ->
  Forall (fun t => is_token t = true) (split_from cur s).
Proof.
  induction s as [|c s IH]; intros cur Hcur; simpl.
  - destruct cur as [|x cur]; constructor; [|constructor].
    apply no_space_is_token; [discriminate|exact Hcur].
  - destruct (is_space c) eqn:Hc.
    + destruct cur as [|x cur]; [apply IH; constructor|].
      constructor; [|apply IH; constructor].
      apply no_space_is_token; [discriminate|exact Hcur].
    + apply IH. apply Forall_app; split; [exact Hcur|].
      constructor; [exact Hc|constructor].
Qed.

Lemma split_tokens s : Forall (fun t => is_token t = true) (split s).
Proof. apply split_from_tokens. constructor. Qed.

(** Splitting a line written from tokens gives the tokens back. *)
Lemma split_join_tokens toks c :
  Forall (fun t => is_token t = true) toks -> is_space c = true ->
  split (join [SP] toks ++ [c]) = toks.
Proof.
  intros Htoks Hc. unfold split.
  induction Htoks as [|t toks Ht Htoks IH]; simpl.
  - rewrite Hc. reflexivity.
  - apply is_token_no_space in Ht as [Hne Hns].
    destruct toks as [|t' toks].
    + rewrite split_from_no_space by exact Hns. simpl. rewrite Hc.
      destruct t; [congruence|reflexivity].
    + rewrite <- !app_assoc. rewrite split_from_no_space by exact Hns.
      simpl app at 1. cbn [split_from app].
      replace (is_space SP) with true by reflexivity.
      destruct t; [congruence|]. simpl app. f_equal. exact IH.
Qed.

Lemma no_space_no_newline t : no_space t -> no_newline t.
Proof.
  intros H. eapply Forall_impl; [exact H|].
  intros c Hc. split; intros ->; discriminate.
Qed.

Lemma join_tokens_no_newline toks :
  Forall (fun t => is_token t = true) toks -> no_newline (join [SP] toks).
Proof.
  induction 1 as [|t toks Ht Htoks IH]; simpl; [constructor|].
  apply is_token_no_space in Ht as [_ Hns].
  apply no_space_no_newline in Hns.
  destruct toks as [|t' toks]; [exact Hns|].
  apply Forall_app; split; [exact Hns|].
  constructor; [split; discriminate|exact IH].
Qed.

(** A line without line break inside is read as one line. *)
Lemma lines_from_line t : no_newline t -> forall cur rest,
  lines_from false cur (t ++ LF :: rest)
  = (cur ++ t ++ [LF]) :: lines_from false [] rest.
Proof.
  induction 1 as [|c t [Hlf Hcr] Ht IH]; intros cur rest; simpl.
  - reflexivity.
  - destruct (N.eqb_spec c LF); [contradiction|].
    destruct (N.eqb_spec c CR); [contradiction|].
    rewrite IH, <- app_assoc. reflexivity.
Qed.

(** After a terminated line the reader starts afresh. *)
Lemma lines_from_app s : forall b cur more, (b = true -> cur = []) ->
  lines_from b cur (s ++ LF :: more)
  = lines_from b cur (s ++ [LF]) ++ lines_from false [] more.
Proof.
  induction s as [|c s IH]; intros b cur more Hb; simpl.
  - destruct b; [rewrite Hb by reflexivity|]; reflexivity.
  - destruct (N.eqb_spec c LF).
    + destruct b; [apply IH; discriminate|].
      simpl. f_equal. apply IH. discriminate.
    + destruct (N.eqb_spec c CR); simpl.
      * f_equal. apply IH. reflexivity.
      * apply IH. discriminate.
Qed.

End StringFacts.

(** ** The registry file *)

Section RegistryFacts.
Import BindServer.

Lemma load_lines_spec lines : forall acc,
  load_lines lines acc
  = acc ++ filter (fun p => (2 <= length p)%nat) (map split lines).
Proof.
  induction lines as [|line lines IH]; intros acc; cbn [load_lines map].
  - rewrite app_nil_r. reflexivity.
  - pose proof (split_strip line) as Hs.
    destruct (strip line) as [|c l] eqn:Hl.
    + rewrite filter_cons_False; [apply IH|].
      rewrite <- Hs. simpl. lia.
    + rewrite Hs. destruct (Nat.leb_spec 2 (length (split line))).
      * rewrite filter_cons_True by assumption.
        rewrite IH, <- app_assoc. reflexivity.
      * rewrite filter_cons_False by lia. apply IH.
Qed.

Lemma load_lines_ok lines : Forall record_ok (load_lines lines []).
Proof.
  rewrite load_lines_spec. simpl. apply Forall_forall. intros r Hr.
  apply list_elem_of_filter in Hr as [Hlen Hr].
  apply list_elem_of_fmap in Hr as [line [-> _]].
  split; [exact Hlen|apply split_tokens].
Qed.

Lemma load_servers_ok fs g : Forall record_ok (_load_servers fs g).
Proof.
  unfold _load_servers. destruct (fs !! file_path g); [|constructor].
  apply load_lines_ok.
Qed.

Lemma readlines_write_records recs : Forall record_ok recs ->
  readlines (write_records recs) = map (fun r => join [SP] r ++ [LF]) recs.
Proof.
  unfold readlines. induction 1 as [|r recs [_ Hr] Hrecs IH]; simpl.
  - reflexivity.
  - rewrite <- app_assoc. simpl.
    rewrite lines_from_line by (apply join_tokens_no_newline, Hr).
    simpl. f_equal. exact IH.
Qed.

(** Reading back what [_remove_server] writes gives the records written. *)
Lemma load_write_records recs : Forall record_ok recs ->
  load_lines (readlines (write_records recs)) [] = recs.
Proof.
  intros H. rewrite readlines_write_records by exact H.
  rewrite load_lines_spec. simpl.
  induction H as [|r recs [Hlen Hr] Hrecs IH]; simpl; [reflexivity|].
  rewrite split_join_tokens by (exact Hr || reflexivity).
  rewrite filter_cons_True by exact Hlen. f_equal. exact IH.
Qed.

(** Reading a terminated file with one more line gives one more record. *)
Lemma load_append text toks : terminated text = true -> record_ok toks ->
  load_lines (readlines (text ++ join [SP] toks ++ [LF])) []
  = load_lines (readlines text) [] ++ [toks].
Proof.
  intros Hterm [Hlen Htoks]. rewrite !load_lines_spec. simpl.
  assert (Hline : forall rest, readlines (join [SP] toks ++ LF :: rest)
            = (join [SP] toks ++ [LF]) :: readlines rest).
  { intros rest. unfold readlines.
    rewrite lines_from_line by (apply join_tokens_no_newline, Htoks).
    reflexivity. }
  assert (Hnew : filter (fun p => (2 <= length p)%nat)
            (map split (readlines (join [SP] toks ++ [LF]))) = [toks]).
  { rewrite Hline. simpl. rewrite split_join_tokens by (exact Htoks || reflexivity).
    rewrite filter_cons_True by exact Hlen. reflexivity. }
  unfold terminated in Hterm. destruct (last text) as [c|] eqn:Hlast.
  - apply N.eqb_eq in Hterm. subst c.
    apply last_Some in Hlast as [t ->].
    rewrite <- app_assoc. simpl.
    unfold readlines at 1. rewrite lines_from_app by discriminate.
    rewrite map_app, filter_app. f_equal. exact Hnew.
  - apply last_None in Hlast. subst text. simpl. exact Hnew.
Qed.

End RegistryFacts.

(** ** Add and Remove *)

Section AddRemove.
Import BindServer.

Lemma already_bound_spec k a servers :
  already_bound k a servers = true <-> Exists (same_identity k a) servers.
Proof.
  induction servers as [|r servers IH]; simpl.
  - split; [discriminate|]. intros H. inversion H.
  - rewrite Exists_cons. destruct (bool_decide_reflect (same_identity k a r)).
    + split; [left; assumption|reflexivity].
    + rewrite IH. split; [right; assumption|]. intros [?|?]; [contradiction|assumption].
Qed.

Lemma added_line k a port : port_ok port ->
  (k ++ u " " ++ a)
  ++ match port with Some p => u " " ++ p | None => [] end ++ [LF]
  = join [SP] (record_of k a port) ++ [LF].
Proof.
  change (u " ") with [SP]. unfold record_of.
  destruct port as [p|]; simpl; intros _;
    repeat (rewrite <- app_assoc; simpl); reflexivity.
Qed.

Lemma record_of_ok k a port :
  is_token k = true -> is_token a = true -> port_ok port ->
  record_ok (record_of k a port).
Proof.
  intros Hk Ha Hp. unfold record_of. split; [simpl; lia|].
  destruct port as [p|]; repeat constructor; assumption.
Qed.

(** Add, when no stored record has the identity. *)
Lemma add_server_new (fs : gmap str str) (g key acc : str) (port : option str) :
  ~ Exists (same_identity key acc) (_load_servers fs g) ->
  store_terminated fs g ->
  is_token key = true -> is_token acc = true -> port_ok port ->
  _add_server fs g key acc port
  = (msg_added key acc port,
     append_file fs (file_path g) (join [SP] (record_of key acc port) ++ [LF]))
  /\ _load_servers (_add_server fs g key acc port).2 g
     = _load_servers fs g ++ [record_of key acc port].
Proof.
  intros Hno Hterm Hk Ha Hp. unfold _add_server.
  destruct (already_bound key acc (_load_servers fs g)) eqn:Hb.
  { apply already_bound_spec in Hb. contradiction. }
  assert (Hrec : match port with
                 | Some (c :: p) => (key ++ u " " ++ acc) ++ u " " ++ c :: p
                 | _ => key ++ u " " ++ acc
                 end ++ [LF]
                 = join [SP] (record_of key acc port) ++ [LF]).
  { rewrite <- added_line by exact Hp.
    destruct port as [[|c p]|]; [discriminate Hp| |].
    - rewrite <- !app_assoc. reflexivity.
    - reflexivity. }
  rewrite Hrec. split; [reflexivity|]. cbn [snd].
  unfold _load_servers, append_file. rewrite lookup_insert_eq.
  unfold store_terminated in Hterm.
  destruct (fs !! file_path g) as [text|]; cbn [default from_option id].
  - apply load_append; [exact Hterm|]. apply record_of_ok; assumption.
  - apply (load_append [] (record_of key acc port)); [reflexivity|].
    apply record_of_ok; assumption.
Qed.

(** C1, as amended — Add. When a stored record already has the server key
    and the account id (whatever its other fields), [_add_server] answers
    that the binding exists and writes nothing, for every file. Otherwise,
    when the key, the account id and the port are tokens and the file of
    the group is absent, empty or ends with a line feed, it answers that
    the binding was added, the records loaded afterwards are the former
    ones followed by the new record (key, account id, and the port when one
    was given), and no other file changes. *)
Theorem add_server_spec (fs : gmap str str) (g key acc : str)
    (port : option str) :
  let servers := _load_servers fs g in
  let out := _add_server fs g key acc port in
  (Exists (same_identity key acc) servers -> out = (msg_exists, fs))
  /\ (~ Exists (same_identity key acc) servers ->
      store_terminated fs g ->
      is_token key = true -> is_token acc = true -> port_ok port ->
      out.1 = msg_added key acc port
      /\ _load_servers out.2 g = servers ++ [record_of key acc port]
      /\ forall path, path <> file_path g -> out.2 !! path = fs !! path).
Proof.
  intros servers out. subst out servers. split.
  - intros H. apply already_bound_spec in H.
    unfold _add_server. rewrite H. reflexivity.
  - intros Hno Hterm Hk Ha Hp.
    destruct (add_server_new fs g key acc port Hno Hterm Hk Ha Hp) as [Heq Hload].
    split; [rewrite Heq; reflexivity|]. split; [exact Hload|].
    intros path Hpath. rewrite Heq. cbn [snd]. unfold append_file.
    rewrite lookup_insert_ne by congruence. reflexivity.
Qed.

Lemma add_server_spec_witness :
  let fs : gmap str str := {[ file_path (u "g") := u "k1 a1 7777" ++ [LF] ]} in
  _add_server fs (u "g") (u "k1") (u "a1") None = (msg_exists, fs)
  /\ _load_servers
       (_add_server fs (u "g") (u "k2") (u "a2") (Some (u "8888"))).2 (u "g")
     = [[u "k1"; u "a1"; u "7777"]; [u "k2"; u "a2"; u "8888"]].
Proof.
  intros fs. split.
  - apply (proj1 (add_server_spec fs (u "g") (u "k1") (u "a1") None)).
    apply (bool_decide_unpack _). vm_compute. exact I.
  - refine (proj1 (proj2 (proj2
      (add_server_spec fs (u "g") (u "k2") (u "a2") (Some (u "8888")))
      _ _ _ _ _))).
    + apply (bool_decide_unpack _). vm_compute. exact I.
    + vm_compute. reflexivity.
    + reflexivity.
    + reflexivity.
    + reflexivity.
Defined.

(** C1, as stated, fails: it is not for every collection and every pair.
    On a file whose last line has no line feed, the line written by Add is
    glued to that line: the record [k1 a1] becomes [k1 a1k2 a2], the new
    binding is not among the records, and the former record is changed.
    And a key with a space in it, which the function accepts although the
    command never passes one, is stored as two fields. *)
Lemma add_unterminated_counterexample :
  let fs : gmap str str := {[ file_path (u "g") := u "k1 a1" ]} in
  let out := _add_server fs (u "g") (u "k2") (u "a2") None in
  _load_servers fs (u "g") = [[u "k1"; u "a1"]]
  /\ ~ Exists (same_identity (u "k2") (u "a2")) (_load_servers fs (u "g"))
  /\ out.1 = msg_added (u "k2") (u "a2") None
  /\ _load_servers out.2 (u "g") = [[u "k1"; u "a1k2"; u "a2"]]
  /\ _load_servers out.2 (u "g")
     <> _load_servers fs (u "g") ++ [[u "k2"; u "a2"]]
  /\ _load_servers (_add_server ∅ (u "g") (u "k 2") (u "a2") None).2 (u "g")
     = [[u "k"; u "2"; u "a2"]].
Proof.
  intros fs out. split; [vm_compute; reflexivity|].
  split; [apply (bool_decide_unpack _); vm_compute; exact I|].
  split; [vm_compute; reflexivity|].
  split; [vm_compute; reflexivity|].
  split; [vm_compute; discriminate|].
  vm_compute. reflexivity.
Qed.

(** The files written by Add stay terminated. *)
Lemma add_server_terminated fs g key acc port :
  store_terminated fs g ->
  store_terminated (_add_server fs g key acc port).2 g.
Proof.
  intros H. unfold _add_server.
  destruct (already_bound key acc (_load_servers fs g)); [exact H|].
  cbn [snd]. unfold store_terminated, append_file.
  rewrite lookup_insert_eq. unfold terminated.
  rewrite app_assoc, last_snoc. reflexivity.
Qed.

Lemma write_records_terminated recs : terminated (write_records recs) = true.
Proof.
  unfold terminated. induction recs as [|r recs IH]; [reflexivity|].
  simpl. destruct recs as [|r' recs].
  - simpl. rewrite app_nil_r, last_snoc. reflexivity.
  - rewrite last_app. destruct (last (write_records (r' :: recs))); [exact IH|].
    rewrite last_snoc. reflexivity.
Qed.

(** The files written by Remove are terminated. *)
Lemma remove_server_terminated fs g key acc :
  store_terminated fs g ->
  store_terminated (_remove_server fs g key acc).2 g.
Proof.
  intros H. unfold _remove_server.
  destruct (_ =? _)%nat; [exact H|].
  cbn [snd]. unfold store_terminated. rewrite lookup_insert_eq.
  apply write_records_terminated.
Qed.

Lemma filter_keeps_all {A} (P : A -> Prop) `{!forall x, Decision (P x)} l :
  length (filter P l) = length l -> Forall P l.
Proof.
  intros Hlen. apply Forall_forall. intros x Hx.
  destruct (decide (P x)) as [|Hn]; [assumption|].
  pose proof (length_filter_lt P l x Hx Hn). lia.
Qed.

Lemma filter_all {A} (P : A -> Prop) `{!forall x, Decision (P x)} l :
  Forall P l -> filter P l = l.
Proof.
  induction 1 as [|x l Hx Hl IH]; [reflexivity|].
  rewrite filter_cons_True by exact Hx. f_equal. exact IH.
Qed.

(** C2 — Remove. The records loaded after [_remove_server] are the former
    ones without those whose first two fields are the server key and the
    account id, whatever their port, the others in their order; no other
    file changes; when a record matched the answer is the removal notice,
    and when none matched the answer is the not-found notice and the store
    is the same. *)
Theorem remove_server_spec (fs : gmap str str) (g key acc : str) :
  let servers := _load_servers fs g in
  let out := _remove_server fs g key acc in
  _load_servers out.2 g = filter (fun r => ~ same_identity key acc r) servers
  /\ (forall path, path <> file_path g -> out.2 !! path = fs !! path)
  /\ (Exists (same_identity key acc) servers ->
      out.1 = msg_removed key acc)
  /\ (~ Exists (same_identity key acc) servers ->
      out = (msg_not_found, fs)).
Proof.
  intros servers out. subst out. unfold _remove_server. fold servers.
  assert (Hf : filter (fun r => r !! 0%nat <> Some key \/ r !! 1%nat <> Some acc)
                 servers
               = filter (fun r => ~ same_identity key acc r) servers).
  { apply list_filter_iff. intros r. unfold same_identity.
    destruct (decide (r !! 0%nat = Some key));
      destruct (decide (r !! 1%nat = Some acc)); tauto. }
  rewrite Hf. clear Hf.
  set (new_servers := filter (fun r => ~ same_identity key acc r) servers).
  destruct (Nat.eqb_spec (length new_servers) (length servers)) as [Hlen|Hlen].
  - apply filter_keeps_all in Hlen.
    assert (Hsame : new_servers = servers) by (apply filter_all, Hlen).
    cbn [fst snd]. repeat split.
    + symmetry. exact Hsame.
    + intros Hex. apply Exists_exists in Hex as (r & Hr & Hid).
      rewrite Forall_forall in Hlen. destruct (Hlen r Hr Hid).
  - cbn [fst snd]. repeat split.
    + unfold _load_servers at 1. rewrite lookup_insert_eq.
      apply load_write_records. unfold new_servers.
      apply Forall_forall. intros r Hr.
      apply list_elem_of_filter in Hr as [_ Hr].
      pose proof (load_servers_ok fs g) as Hok.
      rewrite Forall_forall in Hok. apply Hok, Hr.
    + intros path Hpath. rewrite lookup_insert_ne by congruence. reflexivity.
    + intros Hno. destruct Hlen. f_equal. unfold new_servers.
      apply filter_all. apply Forall_forall. intros r Hr Hid.
      apply Hno, Exists_exists. exists r. split; assumption.
Qed.

Lemma remove_server_spec_witness :
  let fs : gmap str str :=
    {[ file_path (u "g") :=
         u "k1 a1 7777" ++ [LF] ++ u "k2 a2" ++ [LF] ++ u "k1 a1" ++ [LF] ]} in
  (_remove_server fs (u "g") (u "k1") (u "a1")).1 = msg_removed (u "k1") (u "a1")
  /\ _remove_server fs (u "g") (u "k1") (u "a2") = (msg_not_found, fs).
Proof.
  intros fs. split.
  - apply (proj1 (proj2 (proj2 (remove_server_spec fs (u "g") (u "k1") (u "a1"))))).
    apply (bool_decide_unpack _). vm_compute. exact I.
  - apply (proj2 (proj2 (proj2 (remove_server_spec fs (u "g") (u "k1") (u "a2"))))).
    apply (bool_decide_unpack _). vm_compute. exact I.
Defined.

Lemma same_identity_record_of k a k' a' p :
  same_identity k a (record_of k' a' p) <-> k' = k /\ a' = a.
Proof.
  unfold same_identity, record_of. simpl. split.
  - intros [H1 H2]. split; congruence.
  - intros [-> ->]. split; reflexivity.
Qed.

Lemma add_all_load (g : str) (bs : list binding) : forall fs,
  store_terminated fs g ->
  Forall binding_ok bs ->
  NoDup (map fst bs) ->
  Forall (fun b => ~ Exists (same_identity b.1.1 b.1.2) (_load_servers fs g)) bs ->
  _load_servers (add_all fs g bs) g = _load_servers fs g ++ map stored bs.
Proof.
  induction bs as [|b bs IH]; intros fs Hterm Hok Hnd Hfresh.
  - simpl. rewrite app_nil_r. reflexivity.
  - apply Forall_cons in Hok as [(Hk & Ha & Hp) Hok].
    apply NoDup_cons in Hnd as [Hb Hnd].
    apply Forall_cons in Hfresh as [Hnew Hfresh].
    destruct (add_server_new fs g b.1.1 b.1.2 b.2 Hnew Hterm Hk Ha Hp)
      as [_ Hload].
    cbn [add_all foldl]. fold (add_all (_add_server fs g b.1.1 b.1.2 b.2).2 g bs).
    rewrite IH.
    + rewrite Hload, <- app_assoc. reflexivity.
    + apply add_server_terminated, Hterm.
    + exact Hok.
    + exact Hnd.
    + rewrite Hload. apply Forall_forall. intros b' Hb' Hex.
      apply Exists_app in Hex as [Hex|Hex].
      * rewrite Forall_forall in Hfresh. exact (Hfresh b' Hb' Hex).
      * apply Exists_cons in Hex as [Hex|Hex]; [|inversion Hex].
        apply same_identity_record_of in Hex as [H1 H2].
        apply Hb. apply list_elem_of_fmap. exists b'. split; [|exact Hb'].
        destruct b as [[k a] p], b' as [[k' a'] p']. simpl in *. congruence.
Qed.

(** C8, as amended — round trip. Bindings with token fields and pairwise
    distinct (server key, account id), added one by one to a group whose
    file is absent, are loaded back as that many records, with the same
    fields in the same order. *)
Theorem add_all_roundtrip (fs : gmap str str) (g : str) (bs : list binding) :
  fs !! file_path g = None ->
  Forall binding_ok bs ->
  NoDup (map fst bs) ->
  _load_servers (add_all fs g bs) g = map stored bs
  /\ length (_load_servers (add_all fs g bs) g) = length bs.
Proof.
  intros Habsent Hok Hnd.
  assert (Hempty : _load_servers fs g = []).
  { unfold _load_servers. rewrite Habsent. reflexivity. }
  assert (H : _load_servers (add_all fs g bs) g = map stored bs).
  { rewrite add_all_load; [rewrite Hempty; reflexivity| |exact Hok|exact Hnd|].
    - unfold store_terminated. rewrite Habsent. exact I.
    - rewrite Hempty. apply Forall_forall. intros b _ Hex. inversion Hex. }
  split; [exact H|]. rewrite H. apply length_map.
Qed.

Lemma add_all_roundtrip_witness :
  let bs : list binding :=
    [(u "k1", u "a1", None); (u "k1", u "a2", Some (u "7777"))] in
  _load_servers (add_all ∅ (u "g") bs) (u "g")
  = [[u "k1"; u "a1"]; [u "k1"; u "a2"; u "7777"]].
Proof.
  intros bs. refine (proj1 (add_all_roundtrip ∅ (u "g") bs _ _ _)).
  - reflexivity.
  - repeat constructor.
  - apply (bool_decide_unpack _). vm_compute. exact I.
Defined.

(** C8, as stated, fails: two well-formed bindings with the same server key
    and account id are not both stored, so two records are written and one
    is read back. *)
Lemma roundtrip_same_identity_counterexample :
  let bs : list binding :=
    [(u "k1", u "a1", None); (u "k1", u "a1", Some (u "7777"))] in
  Forall binding_ok bs
  /\ _load_servers (add_all ∅ (u "g") bs) (u "g") = [[u "k1"; u "a1"]]
  /\ _load_servers (add_all ∅ (u "g") bs) (u "g") <> map stored bs
  /\ length (_load_servers (add_all ∅ (u "g") bs) (u "g")) <> length bs.
Proof.
  intros bs. split; [repeat constructor|].
  split; [vm_compute; reflexivity|].
  split; vm_compute; discriminate.
Qed.

End AddRemove.

(** ** The query command: targets, requests, report *)

Section QueryFacts.
Import CXServerAPI.

Lemma first_occurrences_elem l t : t ∈ first_occurrences l <-> t ∈ l.
Proof.
  induction l as [|x l IH]; simpl; [reflexivity|].
  rewrite !elem_of_cons, list_elem_of_filter, IH.
  destruct (decide (t = x)); tauto.
Qed.

Lemma first_occurrences_NoDup l : NoDup (first_occurrences l).
Proof.
  induction l as [|x l IH]; simpl; constructor.
  - rewrite list_elem_of_filter. intros [H _]. apply H. reflexivity.
  - apply NoDup_filter, IH.
Qed.

Lemma first_occurrences_sublist l : first_occurrences l `sublist_of` l.
Proof.
  induction l as [|x l IH]; simpl; [constructor|].
  apply sublist_skip. etransitivity; [apply sublist_filter; apply _|exact IH].
Qed.

Lemma drop_seen (acc : list target) t l : t ∈ acc ->
  filter (fun x => x ∉ acc) (t :: filter (fun x => x <> t) l)
  = filter (fun x => x ∉ acc) l.
Proof.
  intros Ht. rewrite filter_cons_False by (intros H; exact (H Ht)).
  rewrite list_filter_filter. apply list_filter_iff.
  intros x. split; [tauto|]. intros H. split; [exact H|]. intros ->. exact (H Ht).
Qed.

Lemma keep_new (acc : list target) t l : t ∉ acc ->
  acc ++ filter (fun x => x ∉ acc) (t :: filter (fun x => x <> t) l)
  = (acc ++ [t]) ++ filter (fun x => x ∉ acc ++ [t]) l.
Proof.
  intros Ht. rewrite filter_cons_True by exact Ht.
  rewrite <- app_assoc. simpl. do 2 f_equal.
  rewrite list_filter_filter. apply list_filter_iff.
  intros x. rewrite elem_of_app, list_elem_of_singleton. tauto.
Qed.

(** The targets read by the query command are the stored bindings without
    their duplicates. *)
Lemma read_infos_spec lines : forall acc,
  read_infos lines acc
  = acc ++ filter (fun x => x ∉ acc)
             (first_occurrences (omap target_of (BindServer.load_lines lines []))).
Proof.
  intros acc. rewrite load_lines_spec. simpl. revert acc.
  induction lines as [|line lines IH]; intros acc; cbn [read_infos map].
  - simpl. rewrite app_nil_r. reflexivity.
  - pose proof (split_strip line) as Hs.
    destruct (strip line) as [|c l] eqn:Hl.
    + rewrite filter_cons_False by (rewrite <- Hs; simpl; lia). apply IH.
    + rewrite Hs. destruct (split line) as [|k [|a more]] eqn:Hparts.
      * rewrite filter_cons_False by (simpl; lia). apply IH.
      * rewrite filter_cons_False by (simpl; lia). apply IH.
      * rewrite filter_cons_True by (simpl; lia).
        cbn [omap list_omap target_of first_occurrences].
        destruct (bool_decide_reflect ((k, a, head more) ∈ acc)) as [Hin|Hin].
        -- rewrite drop_seen by exact Hin. apply IH.
        -- rewrite keep_new by exact Hin. apply IH.
Qed.

Lemma handle_targets fs g text :
  fs !! BindServer.file_path g = Some text ->
  read_infos (readlines text) [] = first_occurrences (stored_targets fs g).
Proof.
  intros Hfile. rewrite read_infos_spec. simpl.
  unfold stored_targets, BindServer._load_servers. rewrite Hfile.
  apply filter_all. apply Forall_forall. intros x _. apply not_elem_of_nil.
Qed.

(** The loop over the targets: one request per target, in order, and the
    lines of each target appended in that order; the files are not touched. *)
Lemma query_all_spec net targets : forall n results w,
  query_all net n targets results w
  = (results
     ++ concat (imap (fun i t => target_results t (net (n + i)%nat (request_of t)))
                  targets),
     {| files := files w; sent := sent w ++ map request_of targets |}).
Proof.
  induction targets as [|[[k a] p] targets IH]; intros n results w.
  - simpl. rewrite !app_nil_r. destruct w; reflexivity.
  - cbn [query_all]. rewrite IH. cbn [files sent].
    rewrite imap_cons. cbn [concat map]. rewrite <- !app_assoc.
    rewrite Nat.add_0_r. f_equal. f_equal. f_equal. f_equal.
    apply imap_ext. intros i t _. simpl. rewrite Nat.add_succ_r. reflexivity.
Qed.

(** The command as a whole, in terms of the stored bindings. *)
Lemma handle_spec net g w :
  handle net g w
  = match files w !! BindServer.file_path g with
    | None => (msg_unbound, w)
    | Some _ =>
        let targets := first_occurrences (stored_targets (files w) g) in
        match targets with
        | [] => (msg_empty, w)
        | _ =>
            let results :=
              concat (imap (fun i t => target_results t (net i (request_of t)))
                        targets) in
            (match results with
             | [] => msg_all_failed
             | _ => join [LF; LF] results
             end,
             {| files := files w; sent := sent w ++ map request_of targets |})
        end
    end.
Proof.
  unfold handle. fold (BindServer.file_path g).
  destruct (files w !! BindServer.file_path g) as [text|] eqn:Hfile;
    [|reflexivity].
  rewrite (handle_targets _ _ _ Hfile).
  destruct (first_occurrences (stored_targets (files w) g)) as [|t targets];
    [reflexivity|].
  rewrite query_all_spec. reflexivity.
Qed.

(** C9 — the query command writes no file: after it the files are those of
    before, so every group loads the records it loaded before, whatever the
    remote service answers. *)
Theorem handle_keeps_store (net : network) (g : str) (w : world) :
  files (handle net g w).2 = files w
  /\ forall g', BindServer._load_servers (files (handle net g w).2) g'
               = BindServer._load_servers (files w) g'.
Proof.
  assert (H : files (handle net g w).2 = files w).
  { rewrite handle_spec.
    destruct (files w !! BindServer.file_path g); [|reflexivity].
    cbv zeta. destruct (first_occurrences _); reflexivity. }
  split; [exact H|]. intros g'. rewrite H. reflexivity.
Qed.

(** C4 — the requests of one query command are those of the stored bindings
    without duplicates: one request per distinct tuple (server key, account
    id, port or none), the first occurrence of each kept, in the order of
    first occurrence. Tuples that differ in the port only are distinct
    targets and get a request each. *)
Theorem handle_requests (net : network) (g : str) (w : world) :
  let bindings := stored_targets (files w) g in
  let targets := first_occurrences bindings in
  sent (handle net g w).2 = sent w ++ map request_of targets
  /\ NoDup targets
  /\ targets `sublist_of` bindings
  /\ (forall t, t ∈ targets <-> t ∈ bindings)
  /\ (forall k a p1 p2, p1 <> p2 ->
        (k, a, p1) ∈ bindings -> (k, a, p2) ∈ bindings ->
        exists i j, i <> j /\ targets !! i = Some (k, a, p1)
                    /\ targets !! j = Some (k, a, p2)).
Proof.
  intros bindings targets. split; [|split; [|split; [|split]]].
  - rewrite handle_spec. fold bindings. fold targets.
    destruct (files w !! BindServer.file_path g) as [text|] eqn:Hfile.
    + cbv zeta. destruct targets; [rewrite app_nil_r|]; reflexivity.
    + assert (Hb : bindings = []).
      { unfold bindings, stored_targets, BindServer._load_servers.
        rewrite Hfile. reflexivity. }
      unfold targets. rewrite Hb. simpl. rewrite app_nil_r. reflexivity.
  - apply first_occurrences_NoDup.
  - apply first_occurrences_sublist.
  - intros t. apply first_occurrences_elem.
  - intros k a p1 p2 Hp H1 H2.
    apply first_occurrences_elem, list_elem_of_lookup in H1 as [i Hi].
    apply first_occurrences_elem, list_elem_of_lookup in H2 as [j Hj].
    exists i, j. split; [|split; assumption].
    intros ->. fold targets in Hi, Hj. congruence.
Qed.

Lemma handle_requests_witness :
  let w := {| files := {[ BindServer.file_path (u "g") :=
                            u "k a 7777" ++ [LF] ++ u "k a" ++ [LF]
                            ++ u "k a 7777" ++ [LF] ]};
              sent := [] |} in
  let net : network := fun _ _ => TimedOut in
  sent (handle net (u "g") w).2
  = [ {| req_id := u "a"; req_key := u "k" |};
      {| req_id := u "a"; req_key := u "k" |} ]
  /\ exists i j, i <> j
      /\ first_occurrences (stored_targets (files w) (u "g")) !! i
         = Some (u "k", u "a", Some (u "7777"))
      /\ first_occurrences (stored_targets (files w) (u "g")) !! j
         = Some (u "k", u "a", None).
Proof.
  intros w net. split.
  - rewrite (proj1 (handle_requests net (u "g") w)). vm_compute. reflexivity.
  - apply (proj2 (proj2 (proj2 (proj2 (handle_requests net (u "g") w))))).
    + discriminate.
    + apply (bool_decide_unpack _). vm_compute. exact I.
    + apply (bool_decide_unpack _). vm_compute. exact I.
Defined.

(** C3, as amended — three targets whose outcomes are a timeout, a reply
    with a status other than 200 and a reply with a JSON body: the answer is
    the timeout line of the first, the failure line of the second with its
    status, and then the blocks that the renderer returns for the third, one
    per server entry rendered, all joined by a blank line in the order of
    the targets. With one block there are three sections. *)
Theorem handle_three_targets (net : network) (g : str) (w : world)
    (k1 a1 k2 a2 k3 a3 : str) (p1 p2 p3 : option str)
    (status : Z) (b : body) (data : value) (blocks : list str) :
  first_occurrences (stored_targets (files w) g)
    = [(k1, a1, p1); (k2, a2, p2); (k3, a3, p3)] ->
  net 0%nat (request_of (k1, a1, p1)) = TimedOut ->
  net 1%nat (request_of (k2, a2, p2)) = Reply status b ->
  status <> 200%Z ->
  net 2%nat (request_of (k3, a3, p3)) = Reply 200 (Parsed data) ->
  _parse_servers k3 a3 data p3 = inr blocks ->
  (handle net g w).1
    = join [LF; LF] ([msg_timeout k1; msg_http k2 status] ++ blocks)
  /\ (forall block, blocks = [block] ->
      (handle net g w).1
      = msg_timeout k1 ++ [LF; LF] ++ msg_http k2 status ++ [LF; LF] ++ block).
Proof.
  intros Htargets H1 H2 Hstatus H3 Hparse.
  assert (Hfile : is_Some (files w !! BindServer.file_path g)).
  { destruct (files w !! BindServer.file_path g) eqn:Hf; [eauto|].
    unfold stored_targets, BindServer._load_servers in Htargets.
    rewrite Hf in Htargets. discriminate. }
  destruct Hfile as [text Hfile].
  assert (H : (handle net g w).1
              = join [LF; LF] ([msg_timeout k1; msg_http k2 status] ++ blocks)).
  { rewrite handle_spec, Hfile. cbv zeta. rewrite Htargets.
    cbn [imap concat fst compose]. rewrite H1, H2, H3.
    cbn [target_results]. rewrite Hparse.
    destruct (Z.eqb_spec status 200) as [|_]; [contradiction|].
    cbn [negb Z.eqb Pos.eqb app]. rewrite app_nil_r. reflexivity. }
  split; [exact H|]. intros block ->. rewrite H. reflexivity.
Qed.

Lemma handle_three_targets_witness :
  exists block,
    (handle (three_outcomes (response [Obj []])) (u "g") three_bindings).1
    = msg_timeout (u "k1") ++ [LF; LF] ++ msg_http (u "k2") 500
      ++ [LF; LF] ++ block.
Proof.
  eexists.
  refine (proj2 (handle_three_targets (three_outcomes (response [Obj []]))
            (u "g") three_bindings (u "k1") (u "a1") (u "k2") (u "a2")
            (u "k3") (u "a3") None None None 500 BadJson (response [Obj []])
            [_] _ _ _ _ _ _) _ eq_refl).
  - vm_compute. reflexivity.
  - reflexivity.
  - reflexivity.
  - discriminate.
  - reflexivity.
  - vm_compute. reflexivity.
Defined.

(** C3, as stated, fails: the third target does not always give one
    section. A body whose entries are not objects gives no block, and the
    answer is the two failure lines only, which is not three sections
    whatever the third would be; a body with two server entries gives two
    blocks, and the answer has four sections. *)
Lemma three_sections_counterexample :
  (handle (three_outcomes (response [Int 1])) (u "g") three_bindings).1
    = msg_timeout (u "k1") ++ [LF; LF] ++ msg_http (u "k2") 500
  /\ (forall section,
        (handle (three_outcomes (response [Int 1])) (u "g") three_bindings).1
        <> join [LF; LF] [msg_timeout (u "k1"); msg_http (u "k2") 500; section])
  /\ (exists b1 b2,
        render_block (u "a3") 1 [] [] = inr b1
        /\ render_block (u "a3") 2 [] [] = inr b2
        /\ (handle (three_outcomes (response [Obj []; Obj []])) (u "g")
              three_bindings).1
           = join [LF; LF]
               [msg_timeout (u "k1"); msg_http (u "k2") 500; b1; b2]).
Proof.
  split; [vm_compute; reflexivity|]. split.
  - intros section H.
    assert (Hlen : length (handle (three_outcomes (response [Int 1])) (u "g")
                             three_bindings).1
                   = length (msg_timeout (u "k1") ++ [LF; LF]
                             ++ msg_http (u "k2") 500))
      by (vm_compute; reflexivity).
    rewrite H in Hlen. cbn [join] in Hlen. rewrite !length_app in Hlen.
    cbn [length] in Hlen. lia.
  - eexists _, _. split; [vm_compute; reflexivity|].
    split; vm_compute; reflexivity.
Qed.

End QueryFacts.

(** ** Rendering the entries of a response *)

Section RenderFacts.
Import CXServerAPI.

Lemma rendered_nil acc port i : rendered acc port i [] [].
Proof.
  exists []. split; [constructor|]. split; [|constructor].
  intros pos. split; [intros H; inversion H|].
  intros (v & Hv & _). discriminate.
Qed.

Lemma block_at_shift acc i v rest pos b :
  block_at acc (i + 1) rest pos b -> block_at acc i (v :: rest) (S pos) b.
Proof.
  intros (sd & Hsd & Hb). exists sd. split; [exact Hsd|].
  rewrite <- Hb. f_equal. lia.
Qed.

Lemma shifted_positions acc port i v rest positions blocks :
  StronglySorted lt positions ->
  (forall pos, pos ∈ positions
               <-> exists x, rest !! pos = Some x /\ passes port x) ->
  Forall2 (block_at acc (i + 1) rest) positions blocks ->
  StronglySorted lt (S <$> positions)
  /\ (forall pos, (S pos ∈ (S <$> positions))
                  <-> exists x, (v :: rest) !! S pos = Some x /\ passes port x)
  /\ (0%nat ∉ (S <$> positions))
  /\ Forall2 (block_at acc i (v :: rest)) (S <$> positions) blocks.
Proof.
  intros Hsorted Hmem Hblocks. split; [|split; [|split]].
  - apply (StronglySorted_fmap S lt lt); [|exact Hsorted]. intros x y Hxy. lia.
  - intros pos. change ((v :: rest) !! S pos) with (rest !! pos).
    rewrite <- Hmem. rewrite list_elem_of_fmap. split.
    + intros (y & Hy & Hin). injection Hy as ->. exact Hin.
    + intros Hin. exists pos. split; [reflexivity|exact Hin].
  - rewrite list_elem_of_fmap. intros (y & Hy & _). discriminate.
  - apply Forall2_fmap_l. eapply Forall2_impl; [exact Hblocks|].
    intros pos b. apply block_at_shift.
Qed.

Lemma rendered_skip acc port i v rest blocks :
  ~ passes port v ->
  rendered acc port (i + 1) rest blocks ->
  rendered acc port i (v :: rest) blocks.
Proof.
  intros Hv (positions & Hsorted & Hmem & Hblocks).
  destruct (shifted_positions acc port i v rest positions blocks
              Hsorted Hmem Hblocks) as (H1 & H2 & H3 & H4).
  exists (S <$> positions). split; [exact H1|]. split; [|exact H4].
  intros [|pos]; [|apply H2]. split; [intros H; destruct (H3 H)|].
  intros (x & Hx & Hpass). injection Hx as <-. contradiction.
Qed.

Lemma rendered_keep acc port i sd rest b blocks :
  passes port (Obj sd) ->
  render_block acc i sd (port_text sd) = inr b ->
  rendered acc port (i + 1) rest blocks ->
  rendered acc port i (Obj sd :: rest) (b :: blocks).
Proof.
  intros Hpass Hb (positions & Hsorted & Hmem & Hblocks).
  destruct (shifted_positions acc port i (Obj sd) rest positions blocks
              Hsorted Hmem Hblocks) as (H1 & H2 & H3 & H4).
  exists (0%nat :: (S <$> positions)). split; [|split].
  - constructor; [exact H1|]. apply Forall_forall. intros x Hx.
    apply list_elem_of_fmap in Hx as (y & -> & _). lia.
  - intros [|pos].
    + split; [|intros _; apply elem_of_cons; left; reflexivity].
      intros _. exists (Obj sd). split; [reflexivity|exact Hpass].
    + rewrite elem_of_cons. rewrite <- H2. split; [|tauto].
      intros [H|H]; [discriminate|exact H].
  - constructor; [|exact H4]. exists sd. split; [reflexivity|].
    rewrite <- Hb. f_equal. lia.
Qed.

(** The loop over the entries renders those that pass the filter. *)
Lemma render_servers_rendered acc port servers : forall i infos out,
  render_servers acc port i servers infos = inr out ->
  exists blocks, out = infos ++ blocks /\ rendered acc port i servers blocks.
Proof.
  induction servers as [|v rest IH]; intros i infos out Hout.
  - injection Hout as <-. exists []. rewrite app_nil_r.
    split; [reflexivity|apply rendered_nil].
  - cbn [render_servers] in Hout.
    destruct v as [| | | | |items|sd];
      try (apply IH in Hout as (blocks & -> & Hr); exists blocks;
           split; [reflexivity|]; apply rendered_skip; [intros []|exact Hr]).
    fold (port_text sd) in Hout.
    destruct (given port
              && negb (bool_decide (Some (port_text sd) = port))) eqn:Hskip.
    + apply IH in Hout as (blocks & -> & Hr). exists blocks.
      split; [reflexivity|]. apply rendered_skip; [|exact Hr].
      apply andb_true_iff in Hskip as [Hg Hne]. intros Hpass.
      apply negb_true_iff, bool_decide_eq_false in Hne. exact (Hne (Hpass Hg)).
    + destruct (render_block acc i sd (port_text sd)) as [e|b] eqn:Hb;
        [discriminate|].
      cbn [bind] in Hout. apply IH in Hout as (blocks & -> & Hr).
      exists (b :: blocks). rewrite <- app_assoc. split; [reflexivity|].
      apply rendered_keep; [|exact Hb|exact Hr].
      intros Hg. rewrite Hg in Hskip. simpl in Hskip.
      apply negb_false_iff, bool_decide_eq_true in Hskip. exact Hskip.
Qed.

(** When no entry passes the filter, the loop adds nothing. *)
Lemma render_servers_none acc port servers : forall i infos,
  Forall (fun v => ~ passes port v) servers ->
  render_servers acc port i servers infos = inr infos.
Proof.
  induction servers as [|v rest IH]; intros i infos Hall; [reflexivity|].
  apply Forall_cons in Hall as [Hv Hrest]. cbn [render_servers].
  destruct v as [| | | | |items|sd]; try (apply IH; exact Hrest).
  fold (port_text sd).
  destruct (given port
            && negb (bool_decide (Some (port_text sd) = port))) eqn:Hskip;
    [apply IH; exact Hrest|].
  destruct Hv. intros Hg. rewrite Hg in Hskip. simpl in Hskip.
  apply negb_false_iff, bool_decide_eq_true in Hskip. exact Hskip.
Qed.

Lemma roster_lines_grows players : forall j info out,
  roster_lines j players info = inr out -> exists extra, out = info ++ extra.
Proof.
  induction players as [|p players IH]; intros j info out H.
  - injection H as <-. exists []. rewrite app_nil_r. reflexivity.
  - cbn [roster_lines] in H. destruct p; try discriminate.
    apply IH in H as [extra ->]. rewrite <- app_assoc. eauto.
Qed.

(** The lines of the players for a list of player objects. *)
Lemma roster_lines_objects (ps : list dict) : forall j info,
  roster_lines j (Obj <$> ps) info
  = inr (info ++ imap (fun n d => player_line (j + Z.of_nat n) d) ps).
Proof.
  induction ps as [|d ps IH]; intros j info.
  - simpl. rewrite app_nil_r. reflexivity.
  - cbn [fmap list_fmap roster_lines]. rewrite IH, imap_cons, <- app_assoc.
    simpl. rewrite Z.add_0_r. do 3 f_equal.
    apply imap_ext. intros n x _. simpl. f_equal. lia.
Qed.





(** What [_parse_servers] comes to for a successful response with a
    non-empty list of entries. *)
Lemma parse_servers_entries key acc d servers port :
  truthy (get d (u "Success") (Bool false)) = true ->
  get d (u "Servers") (Arr []) = Arr servers ->
  servers <> [] ->
  _parse_servers key acc (Obj d) port
  = (server_infos <- render_servers acc port 1 servers [] ;;
     match port, server_infos with
     | Some (c :: p), [] => ret [msg_no_port (c :: p)]
     | _, _ => ret server_infos
     end).
Proof.
  intros Hsuccess Hservers Hne. unfold _parse_servers.
  rewrite Hsuccess, Hservers. destruct servers; [congruence|reflexivity].
Qed.

Lemma passes_filter p v : p <> [] ->
  passes (Some p) v <-> exists sd, v = Obj sd /\ port_text sd = p.
Proof.
  intros Hp. destruct p as [|c p]; [congruence|].
  destruct v; simpl; try (split; [intros []|intros (sd & ? & _); discriminate]).
  split.
  - intros H. eexists. split; [reflexivity|].
    specialize (H eq_refl). congruence.
  - intros (sd & Hsd & Hport) _. injection Hsd as <-. congruence.
Qed.

(** C5 — port filter. For a successful response with a non-empty list of
    entries and a filter that is given: when every entry is skipped (it is
    not an object, or its port as text differs from the filter) the result
    is the one line telling that the port has no data; and whenever blocks
    are returned, they are the blocks of the object entries whose port as
    text equals the filter, one each, in order, so that an entry with
    another port gets no block. *)
Theorem parse_servers_port_filter (key acc : str) (d : dict)
    (servers : list value) (p : str) :
  truthy (get d (u "Success") (Bool false)) = true ->
  get d (u "Servers") (Arr []) = Arr servers ->
  servers <> [] ->
  p <> [] ->
  (Forall (fun v => forall sd, v = Obj sd -> port_text sd <> p) servers ->
   _parse_servers key acc (Obj d) (Some p) = inr [msg_no_port p])
  /\ (forall blocks,
      _parse_servers key acc (Obj d) (Some p) = inr blocks ->
      (blocks = [msg_no_port p]
       /\ Forall (fun v => forall sd, v = Obj sd -> port_text sd <> p) servers)
      \/ (exists positions : list nat,
            StronglySorted lt positions
            /\ (forall pos, pos ∈ positions
                  <-> exists sd, servers !! pos = Some (Obj sd)
                                 /\ port_text sd = p)
            /\ Forall2 (block_at acc 1 servers) positions blocks)).
Proof.
  intros Hsuccess Hservers Hne Hp.
  rewrite (parse_servers_entries key acc d servers (Some p) Hsuccess Hservers Hne).
  assert (Hskip : forall v, (forall sd, v = Obj sd -> port_text sd <> p)
                            <-> ~ passes (Some p) v).
  { intros v. rewrite (passes_filter p v Hp). split.
    - intros H (sd & Hv & Hport). exact (H sd Hv Hport).
    - intros H sd Hv Hport. apply H. eauto. }
  split.
  - intros Hall. rewrite render_servers_none.
    + destruct p; [congruence|reflexivity].
    + eapply Forall_impl; [exact Hall|]. intros v. apply Hskip.
  - intros blocks Hblocks.
    destruct (render_servers acc (Some p) 1 servers []) as [e|out] eqn:Hout;
      [discriminate|].
    apply render_servers_rendered in Hout as (bs & -> & Hr).
    cbn [bind app] in Hblocks.
    destruct Hr as (positions & Hsorted & Hmem & Hbs).
    destruct bs as [|b bs].
    + left. destruct p as [|c p]; [congruence|]. injection Hblocks as <-.
      split; [reflexivity|]. apply Forall_forall. intros v Hv.
      apply Hskip. intros Hpass.
      apply list_elem_of_lookup in Hv as [pos Hpos].
      apply Forall2_nil_inv_r in Hbs. subst positions.
      assert (Hin : pos ∈ @nil nat) by (apply Hmem; eauto).
      inversion Hin.
    + right. assert (blocks = b :: bs) as ->.
      { destruct p as [|c p]; [congruence|]. injection Hblocks as <-. reflexivity. }
      exists positions. split; [exact Hsorted|]. split; [|exact Hbs].
      intros pos. rewrite Hmem. split.
      * intros (v & Hv & Hpass). apply (passes_filter p v Hp) in Hpass
          as (sd & -> & Hport). eauto.
      * intros (sd & Hsd & Hport). exists (Obj sd). split; [exact Hsd|].
        apply (passes_filter p _ Hp). eauto.
Qed.

Lemma parse_servers_port_filter_witness :
  let e1 := Obj [(u "Port", Int 7777)] in
  let e2 := Obj [(u "Port", Int 7778)] in
  _parse_servers (u "k") (u "a") (response [e1; Null; e2]) (Some (u "7779"))
  = inr [msg_no_port (u "7779")].
Proof.
  intros e1 e2.
  apply (proj1 (parse_servers_port_filter (u "k") (u "a")
                  [(u "Success", Bool true); (u "Servers", Arr [e1; Null; e2])]
                  [e1; Null; e2] (u "7779")
                  eq_refl eq_refl ltac:(discriminate) ltac:(discriminate))).
  repeat constructor; intros sd Hsd; try discriminate;
    injection Hsd as <-; vm_compute; discriminate.
Defined.



(** C6 — players. The block of an entry is its lines before the players
    followed by the lines of the players, and there are lines of players
    exactly when [Online] is true. Online with no player list, or an empty
    one: the one line telling that nobody is online. Online with a list of
    [n] player objects: the title, then for each of the first ten players
    the line made of four spaces, the number of the player from 1 in a
    field of two, a dot, a space and the nickname, and for [n > 10] one more
    line, [    ...等] followed by [n - 10] in decimal and [人]. A player
    without nickname is shown as [未知]. Three entries spell the lines out:
    twelve players give ten lines and [...等2人], twenty-five give
    [...等15人], ten give no line of remaining players. *)
Theorem render_block_roster (acc : str) (i : Z) (server : dict) (p : str) :
  let info := info_lines acc i server p in
  let online := truthy (get server (u "Online") Null) in
  let players := get server (u "PlayersList") (Arr []) in
  (forall block, render_block acc i server p = inr block ->
     exists lines, block = join [LF] (info ++ lines)
                   /\ (lines <> [] <-> online = true))
  /\ (online = false -> render_block acc i server p = inr (join [LF] info))
  /\ (online = true -> truthy players = false ->
      render_block acc i server p
      = inr (join [LF] (info ++ [u "  🏜️ 当前无玩家在线"])))
  /\ (forall ps : list dict,
      online = true -> players = Arr (Obj <$> ps) -> ps <> [] ->
      render_block acc i server p
      = inr (join [LF]
               (info ++ [u "  🎮 玩家列表:"]
                ++ imap (fun n d =>
                           u "    " ++ format_2d (Z.of_nat n + 1) ++ u ". "
                           ++ to_str (get d (u "nickname") (Str (u "未知"))))
                     (take 10 ps)
                ++ (if (10 <? length ps)%nat
                    then [u "    ...等"
                          ++ str_of_int (Z.of_nat (length ps) - 10) ++ u "人"]
                    else []))))
  /\ (forall d, lookup_key (u "nickname") d = None ->
      to_str (get d (u "nickname") (Str (u "未知"))) = u "未知")
  /\ (forall d nick, lookup_key (u "nickname") d = Some (Str nick) ->
      to_str (get d (u "nickname") (Str (u "未知"))) = nick)
  /\ (let bob : dict := [(u "nickname", Str (u "Bob"))] in
      let entry (ps : list dict) : dict :=
        [(u "Online", Bool true); (u "PlayersList", Arr (Obj <$> ps))] in
      render_block (u "a") 1 (entry (repeat bob 11 ++ [[]])) (u "7777")
      = inr (join [LF]
               (info_lines (u "a") 1 (entry (repeat bob 11 ++ [[]])) (u "7777")
                ++ [u "  🎮 玩家列表:";
                    u "     1. Bob"; u "     2. Bob"; u "     3. Bob";
                    u "     4. Bob"; u "     5. Bob"; u "     6. Bob";
                    u "     7. Bob"; u "     8. Bob"; u "     9. Bob";
                    u "    10. Bob"; u "    ...等2人"]))
      /\ render_block (u "a") 1 (entry ([bob; []] ++ repeat bob 23)) (u "7777")
         = inr (join [LF]
                  (info_lines (u "a") 1 (entry ([bob; []] ++ repeat bob 23))
                     (u "7777")
                   ++ [u "  🎮 玩家列表:";
                       u "     1. Bob"; u "     2. 未知"; u "     3. Bob";
                       u "     4. Bob"; u "     5. Bob"; u "     6. Bob";
                       u "     7. Bob"; u "     8. Bob"; u "     9. Bob";
                       u "    10. Bob"; u "    ...等15人"]))
      /\ render_block (u "a") 1 (entry (repeat bob 10)) (u "7777")
         = inr (join [LF]
                  (info_lines (u "a") 1 (entry (repeat bob 10)) (u "7777")
                   ++ [u "  🎮 玩家列表:";
                       u "     1. Bob"; u "     2. Bob"; u "     3. Bob";
                       u "     4. Bob"; u "     5. Bob"; u "     6. Bob";
                       u "     7. Bob"; u "     8. Bob"; u "     9. Bob";
                       u "    10. Bob"]))).
Proof.
  intros info online players.
  assert (Hlist : forall ps : list dict,
            online = true -> players = Arr (Obj <$> ps) -> ps <> [] ->
            roster server info
            = inr (info ++ [u "  🎮 玩家列表:"]
                   ++ imap (fun n d => player_line (Z.of_nat n + 1) d) (take 10 ps)
                   ++ (if (10 <? length ps)%nat
                       then [summary_line (Z.of_nat (length ps) - 10)]
                       else []))).
  { intros ps Hon Hps Hne. unfold roster. fold online players.
    rewrite Hon, Hps.
    assert (Htruthy : truthy (Arr (Obj <$> ps)) = true)
      by (destruct ps; [congruence|reflexivity]).
    rewrite Htruthy. cbn [first_ten bind ret].
    rewrite <- fmap_take, roster_lines_objects. cbn [bind len].
    rewrite length_fmap.
    assert (Hnum : imap (fun n d => player_line (1 + Z.of_nat n) d) (take 10 ps)
                   = imap (fun n d => player_line (Z.of_nat n + 1) d) (take 10 ps)).
    { apply imap_ext. intros n d _. simpl. f_equal. lia. }
    rewrite Hnum.
    destruct (Nat.ltb_spec 10 (length ps)) as [Hlt|Hge].
    - destruct (Z.ltb_spec 10 (Z.of_nat (length ps))) as [_|Hle]; [|lia].
      unfold ret. rewrite <- !app_assoc. reflexivity.
    - destruct (Z.ltb_spec 10 (Z.of_nat (length ps))) as [Hlt|_]; [lia|].
      unfold ret. rewrite app_nil_r, <- !app_assoc. reflexivity. }
  split; [|split; [|split; [|split; [|split; [|split]]]]].
  - intros block Hblock. unfold render_block in Hblock. fold info in Hblock.
    destruct (roster server info) as [e|out] eqn:Hroster; [discriminate|].
    injection Hblock as <-. unfold roster in Hroster.
    fold online players in Hroster. destruct online.
    + pose proof Hroster as Hgrows.
      destruct (truthy players).
      * destruct (first_ten players) as [e|shown]; [discriminate|].
        cbn [bind] in Hroster.
        destruct (roster_lines 1 shown _) as [e|lines] eqn:Hlines;
          [discriminate|].
        cbn [bind] in Hroster.
        apply roster_lines_grows in Hlines as [extra ->].
        destruct (_ <? _)%Z; injection Hroster as <-; rewrite <- !app_assoc;
          eexists; (split; [reflexivity|]); split; try reflexivity;
          intros _; discriminate.
      * injection Hroster as <-. eexists. split; [reflexivity|].
        split; [reflexivity|intros _; discriminate].
    + injection Hroster as <-. exists []. rewrite app_nil_r.
      split; [reflexivity|]. split; [congruence|discriminate].
  - intros Hoff. unfold render_block, roster. fold info online.
    rewrite Hoff. reflexivity.
  - intros Hon Hnone. unfold render_block, roster. fold info online players.
    rewrite Hon, Hnone. reflexivity.
  - intros ps Hon Hps Hne. unfold render_block. fold info.
    rewrite (Hlist ps Hon Hps Hne). reflexivity.
  - intros d Hd. unfold get. rewrite Hd. reflexivity.
  - intros d nick Hd. unfold get. rewrite Hd. reflexivity.
  - intros bob entry. split; [|split]; vm_compute; reflexivity.
Qed.

Lemma render_block_roster_witness :
  let player := [(u "nickname", Str (u "Bob"))] in
  let server := [(u "Online", Bool true);
                 (u "PlayersList", Arr (Obj <$> (repeat player 11 ++ [[]])))] in
  render_block (u "a") 1 server (u "7777")
  = inr (join [LF]
           (info_lines (u "a") 1 server (u "7777")
            ++ [u "  🎮 玩家列表:"]
            ++ imap (fun n d =>
                       u "    " ++ format_2d (Z.of_nat n + 1) ++ u ". "
                       ++ to_str (get d (u "nickname") (Str (u "未知"))))
                 (repeat player 10)
            ++ [u "    ...等2人"])).
Proof.
  intros player server.
  exact (proj1 (proj2 (proj2 (proj2
           (render_block_roster (u "a") 1 server (u "7777")))))
           (repeat player 11 ++ [[]]) eq_refl eq_refl ltac:(discriminate)).
Defined.

End RenderFacts.

(** ** The name of a server *)

Section NameFacts.
Import CXServerAPI.

(** C7 — the decoder on the two inputs of the claim. An empty [Info] gives
    the placeholder for an unknown server. The base64 text of
    [<b>Test</b> [color=red]Server[/color]] decodes to that text, and the
    name returned is [Test [color=red]Server], not [Test Server]: the
    pattern takes [<b>], [</b>] and [[/color]], but not [[color=red]],
    whose [=] is outside the letters that the bracket form allows. *)
Theorem extract_server_name_examples :
  let encoded := u "PGI+VGVzdDwvYj4gW2NvbG9yPXJlZF1TZXJ2ZXJbL2NvbG9yXQ==" in
  _extract_server_name (Str []) = u "未知服务器"
  /\ Base64.b64decode encoded = inr (u "<b>Test</b> [color=red]Server[/color]")
  /\ _extract_server_name (Str encoded) = u "Test [color=red]Server"
  /\ _extract_server_name (Str encoded) <> u "Test Server"
  /\ Re.match_at tag_regex (u "[/color]") Some = Some []
  /\ Re.match_at tag_regex (u "[color=red]Server[/color]") Some = None.
Proof.
  intros encoded. repeat split; try (vm_compute; reflexivity).
  vm_compute. discriminate.
Qed.

End NameFacts.

(** ** The registry as its commands use it *)

Section RegistryCommands.
Import BindServer.

Lemma check_server_eq fs g k a :
  _check_server fs g k a
  = msg_check (already_bound k a (_load_servers fs g)) k a.
Proof.
  unfold _check_server, msg_check.
  assert (H : forall l, existsb (fun r => bool_decide (same_identity k a r)) l
                        = already_bound k a l).
  { induction l as [|r l IH]; [reflexivity|]. simpl. rewrite IH.
    destruct (bool_decide (same_identity k a r)); reflexivity. }
  rewrite H. reflexivity.
Qed.

Lemma already_bound_false k a servers :
  already_bound k a servers = false <-> ~ Exists (same_identity k a) servers.
Proof.
  rewrite <- already_bound_spec. destruct (already_bound k a servers).
  - split; [discriminate|]. intros H. destruct H. reflexivity.
  - split; [discriminate|reflexivity].
Qed.

Lemma add_server_existing fs g k a port :
  Exists (same_identity k a) (_load_servers fs g) ->
  _add_server fs g k a port = (msg_exists, fs).
Proof.
  intros H. apply already_bound_spec in H.
  unfold _add_server. rewrite H. reflexivity.
Qed.

(** What is loaded after Remove. *)
Lemma remove_server_load fs g k a :
  _load_servers (_remove_server fs g k a).2 g
  = filter (fun r => ~ same_identity k a r) (_load_servers fs g).
Proof.
  unfold _remove_server.
  assert (Hf : filter (fun r => r !! 0%nat <> Some k \/ r !! 1%nat <> Some a)
                 (_load_servers fs g)
               = filter (fun r => ~ same_identity k a r) (_load_servers fs g)).
  { apply list_filter_iff. intros r. unfold same_identity.
    destruct (decide (r !! 0%nat = Some k));
      destruct (decide (r !! 1%nat = Some a)); tauto. }
  rewrite Hf.
  destruct (Nat.eqb_spec
              (length (filter (fun r => ~ same_identity k a r)
                         (_load_servers fs g)))
              (length (_load_servers fs g))) as [Hlen|Hlen]; cbn [snd].
  - apply filter_keeps_all in Hlen. symmetry. apply filter_all. exact Hlen.
  - unfold _load_servers at 1. rewrite lookup_insert_eq.
    apply load_write_records. apply Forall_forall. intros r Hr.
    apply list_elem_of_filter in Hr as [_ Hr].
    pose proof (load_servers_ok fs g) as Hok.
    rewrite Forall_forall in Hok. apply Hok, Hr.
Qed.

Lemma remove_server_none fs g k a :
  ~ Exists (same_identity k a) (_load_servers fs g) ->
  _remove_server fs g k a = (msg_not_found, fs).
Proof.
  intros Hno. unfold _remove_server.
  assert (Hsame : filter (fun r => r !! 0%nat <> Some k \/ r !! 1%nat <> Some a)
                    (_load_servers fs g) = _load_servers fs g).
  { apply filter_all, Forall_forall. intros r Hr.
    destruct (decide (r !! 0%nat = Some k)) as [H0|H0]; [|left; exact H0].
    destruct (decide (r !! 1%nat = Some a)) as [H1|H1]; [|right; exact H1].
    destruct Hno. apply Exists_exists. exists r. split; [exact Hr|].
    split; assumption. }
  rewrite Hsame, Nat.eqb_refl. reflexivity.
Qed.

Lemma removed_identity_gone fs g k a :
  ~ Exists (same_identity k a) (_load_servers (_remove_server fs g k a).2 g).
Proof.
  rewrite remove_server_load. intros H.
  apply Exists_exists in H as (r & Hr & Hid).
  apply list_elem_of_filter in Hr as [Hnot _]. exact (Hnot Hid).
Qed.

Lemma added_identity_there fs g k a port :
  store_terminated fs g ->
  is_token k = true -> is_token a = true -> port_ok port ->
  Exists (same_identity k a) (_load_servers (_add_server fs g k a port).2 g).
Proof.
  intros Hterm Hk Ha Hp.
  destruct (decide (Exists (same_identity k a) (_load_servers fs g)))
    as [Hex|Hno].
  - rewrite add_server_existing by exact Hex. exact Hex.
  - destruct (add_server_new fs g k a port Hno Hterm Hk Ha Hp) as [_ ->].
    apply Exists_app. right. constructor.
    apply same_identity_record_of. split; reflexivity.
Qed.

Lemma readlines_append text line :
  terminated text = true -> no_newline line ->
  readlines (text ++ line ++ [LF]) = readlines text ++ [line ++ [LF]].
Proof.
  intros Hterm Hline.
  assert (Hone : forall rest, readlines (line ++ LF :: rest)
                              = (line ++ [LF]) :: readlines rest).
  { intros rest. unfold readlines. rewrite lines_from_line by exact Hline.
    reflexivity. }
  unfold terminated in Hterm. destruct (last text) as [c|] eqn:Hlast.
  - apply N.eqb_eq in Hterm. subst c. apply last_Some in Hlast as [t ->].
    rewrite <- app_assoc. simpl. unfold readlines at 1.
    rewrite lines_from_app by discriminate. f_equal. apply (Hone []).
  - apply last_None in Hlast. subst text. apply (Hone []).
Qed.

(** X1 — what is loaded. A group without file has no record; and every
    record loaded has a server key and an account id, all its fields not
    empty and without white space, so that the fields 0 and 1 that the
    commands read are always there. *)
Theorem load_servers_records (fs : gmap str str) (g : str) :
  _load_servers (delete (file_path g) fs) g = []
  /\ Forall (fun r => (exists k a more, r = k :: a :: more)
                      /\ Forall (fun t => is_token t = true) r)
       (_load_servers fs g).
Proof.
  split.
  - unfold _load_servers. rewrite lookup_delete_eq. reflexivity.
  - eapply Forall_impl; [apply load_servers_ok|].
    intros r [Hlen Htok]. split; [|exact Htok].
    destruct r as [|k [|a more]]; simpl in Hlen; try lia. eauto.
Qed.

(** X2 — one more line in the file. When the file ends with a line feed
    and a line without line break is appended, the records loaded are the
    former ones, followed by the fields of the line if it has two fields or
    more; a blank line or a line of one field adds nothing. *)
Theorem load_servers_appended_line (fs : gmap str str) (g text line : str) :
  fs !! file_path g = Some text ->
  terminated text = true ->
  no_newline line ->
  _load_servers (<[file_path g := text ++ line ++ [LF]]> fs) g
  = _load_servers fs g
    ++ (if decide (2 <= length (split line))%nat then [split line] else []).
Proof.
  intros Hfile Hterm Hline. unfold _load_servers.
  rewrite lookup_insert_eq, Hfile, !load_lines_spec. simpl.
  rewrite readlines_append by assumption.
  rewrite map_app, filter_app. f_equal. simpl.
  assert (Hsplit : split (line ++ [LF]) = split line)
    by (apply split_from_space_end; reflexivity).
  rewrite Hsplit, filter_cons, filter_nil. reflexivity.
Qed.

Lemma load_servers_appended_line_witness :
  let fs : gmap str str := {[ file_path (u "g") := u "k1 a1" ++ [LF] ]} in
  _load_servers
    (<[file_path (u "g") := (u "k1 a1" ++ [LF]) ++ u " lonely  " ++ [LF]]> fs)
    (u "g")
  = [[u "k1"; u "a1"]].
Proof.
  intros fs.
  refine (load_servers_appended_line fs (u "g") (u "k1 a1" ++ [LF])
            (u " lonely  ") _ _ _).
  - vm_compute. reflexivity.
  - vm_compute. reflexivity.
  - apply (bool_decide_unpack _). vm_compute. exact I.
Defined.

(** X3 — Add, then Check and Add again. After [_add_server] with token
    arguments on a file whose lines are terminated, whether it stored the
    binding or found it stored, [_check_server] answers that the binding
    exists, and another [_add_server] of the same key and account id, with
    any port, is refused and changes nothing. *)
Theorem add_then_check_and_add (fs : gmap str str) (g k a : str)
    (port port' : option str) :
  store_terminated fs g ->
  is_token k = true -> is_token a = true -> port_ok port ->
  let fs' := (_add_server fs g k a port).2 in
  _check_server fs' g k a = msg_check true k a
  /\ _add_server fs' g k a port' = (msg_exists, fs').
Proof.
  intros Hterm Hk Ha Hp fs'.
  pose proof (added_identity_there fs g k a port Hterm Hk Ha Hp) as Hex.
  fold fs' in Hex. split.
  - rewrite check_server_eq. apply already_bound_spec in Hex.
    rewrite Hex. reflexivity.
  - apply add_server_existing, Hex.
Qed.

Lemma add_then_check_and_add_witness :
  let fs' := (_add_server ∅ (u "g") (u "k1") (u "a1") None).2 in
  _check_server fs' (u "g") (u "k1") (u "a1") = msg_check true (u "k1") (u "a1")
  /\ _add_server fs' (u "g") (u "k1") (u "a1") (Some (u "7777"))
     = (msg_exists, fs').
Proof.
  refine (add_then_check_and_add ∅ (u "g") (u "k1") (u "a1") None
            (Some (u "7777")) _ _ _ _).
  - vm_compute. exact I.
  - vm_compute. reflexivity.
  - vm_compute. reflexivity.
  - exact I.
Defined.

(** X4 — Remove, then Check and Remove again. After [_remove_server], for
    any file, [_check_server] answers that the binding does not exist, and
    a second [_remove_server] finds nothing and leaves the store as it is.
    The two answers of Check differ. *)
Theorem remove_then_check_and_remove (fs : gmap str str) (g k a : str) :
  let fs' := (_remove_server fs g k a).2 in
  _check_server fs' g k a = msg_check false k a
  /\ _remove_server fs' g k a = (msg_not_found, fs')
  /\ msg_check false k a <> msg_check true k a.
Proof.
  intros fs'. pose proof (removed_identity_gone fs g k a) as Hgone.
  fold fs' in Hgone. split; [|split].
  - rewrite check_server_eq. apply already_bound_false in Hgone.
    rewrite Hgone. reflexivity.
  - apply remove_server_none, Hgone.
  - unfold msg_check. intros H. apply (f_equal head) in H.
    vm_compute in H. discriminate.
Qed.

(** X5 — Add, then Remove. For token arguments and a file whose lines are
    terminated: when no stored record has the identity, adding the binding
    and removing it again gives back the records that were loaded before,
    in their order. *)
Theorem remove_after_add (fs : gmap str str) (g k a : str)
    (port : option str) :
  ~ Exists (same_identity k a) (_load_servers fs g) ->
  store_terminated fs g ->
  is_token k = true -> is_token a = true -> port_ok port ->
  _load_servers (_remove_server (_add_server fs g k a port).2 g k a).2 g
  = _load_servers fs g.
Proof.
  intros Hno Hterm Hk Ha Hp. rewrite remove_server_load.
  destruct (add_server_new fs g k a port Hno Hterm Hk Ha Hp) as [_ ->].
  rewrite filter_app, filter_cons_False, filter_nil, app_nil_r.
  - apply filter_all, Forall_forall. intros r Hr Hid.
    apply Hno, Exists_exists. eauto.
  - intros H. apply H, same_identity_record_of. split; reflexivity.
Qed.

Lemma remove_after_add_witness :
  let fs : gmap str str := {[ file_path (u "g") := u "k1 a1 7777" ++ [LF] ]} in
  _load_servers
    (_remove_server (_add_server fs (u "g") (u "k2") (u "a2") None).2
       (u "g") (u "k2") (u "a2")).2 (u "g")
  = _load_servers fs (u "g").
Proof.
  intros fs.
  refine (remove_after_add fs (u "g") (u "k2") (u "a2") None _ _ _ _ _).
  - apply (bool_decide_unpack _). vm_compute. exact I.
  - vm_compute. reflexivity.
  - vm_compute. reflexivity.
  - vm_compute. reflexivity.
  - exact I.
Defined.

Lemma add_keeps_registry fs g k a port :
  registry_ok fs g ->
  is_token k = true -> is_token a = true -> port_ok port ->
  registry_ok (_add_server fs g k a port).2 g.
Proof.
  intros [Hterm Hnd] Hk Ha Hp. split; [apply add_server_terminated, Hterm|].
  destruct (decide (Exists (same_identity k a) (_load_servers fs g)))
    as [Hex|Hno].
  - rewrite add_server_existing by exact Hex. exact Hnd.
  - destruct (add_server_new fs g k a port Hno Hterm Hk Ha Hp) as [_ ->].
    rewrite fmap_app. apply NoDup_app. split; [exact Hnd|].
    split; [|apply NoDup_singleton].
    intros x Hx Hx'. apply list_elem_of_singleton in Hx'. subst x.
    apply list_elem_of_fmap in Hx as (r & Hid & Hr).
    apply Hno, Exists_exists. exists r. split; [exact Hr|].
    unfold identity_of, record_of in Hid. simpl in Hid.
    injection Hid as H0 H1. split; congruence.
Qed.

Lemma remove_keeps_registry fs g k a :
  registry_ok fs g -> registry_ok (_remove_server fs g k a).2 g.
Proof.
  intros [Hterm Hnd]. split; [apply remove_server_terminated, Hterm|].
  rewrite remove_server_load. eapply sublist_NoDup; [exact Hnd|].
  apply fmap_sublist, sublist_filter.
Qed.

Lemma port_of_tokens (more : list str) :
  Forall (fun t => is_token t = true) more -> port_ok (head more).
Proof. destruct 1; [exact I|assumption]. Qed.

Lemma handle_registry_step is_admin lower fs params user g :
  registry_ok fs g -> registry_ok (handle is_admin lower fs params user g).2 g.
Proof.
  intros Hok. unfold handle.
  destruct (is_admin user); [|exact Hok]. cbn [negb].
  pose proof (split_tokens (strip params)) as Htok.
  destruct (split (strip params)) as [|first rest]; [exact Hok|].
  apply Forall_cons in Htok as [_ Htok].
  destruct (bool_decide (lower first = u "add")).
  { destruct rest as [|k [|a more]]; try exact Hok.
    apply Forall_cons in Htok as [Hk Htok].
    apply Forall_cons in Htok as [Ha Htok].
    apply add_keeps_registry; [exact Hok|exact Hk|exact Ha|].
    apply port_of_tokens, Htok. }
  destruct (bool_decide (lower first = u "remove")).
  { destruct rest as [|k [|a [|x more]]]; try exact Hok.
    apply remove_keeps_registry, Hok. }
  destruct (bool_decide (lower first = u "check")); [|exact Hok].
  destruct rest as [|k [|a [|x more]]]; exact Hok.
Qed.

(** X6 — the registry under its commands. Whatever commands are run for a
    group, by whatever callers, a registry whose file ends with a line feed
    and whose records have pairwise distinct identities stays so: no two
    stored records ever have the same server key and account id. A group
    without file is in that state. *)
Theorem commands_keep_registry (is_admin : option str -> bool)
    (lower : str -> str) (g : str) (commands : list (str * option str))
    (fs : gmap str str) :
  registry_ok fs g ->
  registry_ok (run_commands is_admin lower g fs commands) g.
Proof.
  revert fs. induction commands as [|c commands IH]; intros fs Hok;
    [exact Hok|].
  cbn [run_commands foldl].
  apply (IH (handle is_admin lower fs c.1 c.2 g).2).
  apply handle_registry_step, Hok.
Qed.

Lemma commands_keep_registry_witness :
  registry_ok
    (run_commands (fun _ => true) ascii_lower (u "g") ∅
       [(u "Add k1 a1", None); (u "add k1 a1 7777", None);
        (u " ADD k2 a2 7777 extra", None); (u "Remove k1 a1", None)])
    (u "g").
Proof.
  apply commands_keep_registry. split.
  - vm_compute. exact I.
  - vm_compute. constructor.
Defined.

(** X7 — who changes the store. When the store after [handle] is not the
    store before, the caller passed the check of administrators and the
    command was an Add with a key and an account id at least, or a Remove
    with exactly a key and an account id. So a caller who is not an
    administrator, a Check, a command of another name and a command with
    the wrong number of words all leave the store as it is. *)
Theorem handle_changes_store (is_admin : option str -> bool)
    (lower : str -> str) (fs : gmap str str) (params : str)
    (user : option str) (g : str) :
  (handle is_admin lower fs params user g).2 <> fs ->
  is_admin user = true
  /\ exists first rest,
       split (strip params) = first :: rest
       /\ ((lower first = u "add" /\ (2 <= length rest)%nat)
           \/ (lower first = u "remove" /\ length rest = 2%nat)).
Proof.
  unfold handle. intros Hchange.
  destruct (is_admin user); [|destruct Hchange; reflexivity].
  split; [reflexivity|]. cbn [negb] in Hchange.
  destruct (split (strip params)) as [|first rest];
    [destruct Hchange; reflexivity|].
  exists first, rest. split; [reflexivity|].
  destruct (bool_decide_reflect (lower first = u "add")) as [Hadd|_].
  { left. split; [exact Hadd|].
    destruct rest as [|k [|a more]]; try (destruct Hchange; reflexivity).
    simpl. lia. }
  destruct (bool_decide_reflect (lower first = u "remove")) as [Hrem|_].
  { right. split; [exact Hrem|].
    destruct rest as [|k [|a [|x more]]]; try (destruct Hchange; reflexivity).
    reflexivity. }
  destruct (bool_decide (lower first = u "check"));
    [|destruct Hchange; reflexivity].
  destruct rest as [|k [|a [|x more]]]; destruct Hchange; reflexivity.
Qed.

Lemma handle_changes_store_witness :
  exists first rest,
    split (strip (u " Add k1 a1 ")) = first :: rest
    /\ ((ascii_lower first = u "add" /\ (2 <= length rest)%nat)
        \/ (ascii_lower first = u "remove" /\ length rest = 2%nat)).
Proof.
  refine (proj2 (handle_changes_store (fun _ => true) ascii_lower ∅
                   (u " Add k1 a1 ") None (u "g") _)).
  intros H. apply (f_equal (fun m : gmap str str => m !! file_path (u "g"))) in H.
  revert H. vm_compute. discriminate.
Defined.

End RegistryCommands.

(** ** The query command on any number of targets *)

Section QueryCommand.
Import CXServerAPI.

(** X9 — nothing to query. When the group has no stored binding, the
    command sends no request and leaves the world as it is; the answer
    tells that the group is not bound when it has no file, and that its
    bindings are empty when the file has no line of two fields. *)
Theorem handle_without_bindings (net : network) (g : str) (w : world) :
  stored_targets (files w) g = [] ->
  handle net g w
  = (match files w !! BindServer.file_path g with
     | Some _ => msg_empty
     | None => msg_unbound
     end, w).
Proof.
  intros Hnone. rewrite handle_spec. rewrite Hnone.
  destruct (files w !! BindServer.file_path g); reflexivity.
Qed.

Lemma handle_without_bindings_witness :
  let w := {| files := {[ BindServer.file_path (u "g") :=
                            u "lonely" ++ [LF] ++ [LF] ]};
              sent := [] |} in
  handle (fun _ _ => TimedOut) (u "g") w = (msg_empty, w)
  /\ handle (fun _ _ => TimedOut) (u "h") w = (msg_unbound, w).
Proof.
  intros w. split.
  - rewrite (handle_without_bindings (fun _ _ => TimedOut) (u "g") w)
      by (vm_compute; reflexivity).
    vm_compute. reflexivity.
  - rewrite (handle_without_bindings (fun _ _ => TimedOut) (u "h") w)
      by (vm_compute; reflexivity).
    vm_compute. reflexivity.
Defined.

(** X10 — the report in general. With at least one target, the answer is
    the lines of all targets joined by a blank line, target after target in
    the order of the targets, the lines of the [i]-th target being those of
    the outcome of the [i]-th request alone; when no target gives a line,
    the answer is the notice that all queries failed. *)
Theorem handle_report (net : network) (g : str) (w : world) :
  let targets := first_occurrences (stored_targets (files w) g) in
  let results :=
    concat (imap (fun i t => target_results t (net i (request_of t))) targets) in
  targets <> [] ->
  (handle net g w).1
  = match results with
    | [] => msg_all_failed
    | _ => join [LF; LF] results
    end.
Proof.
  intros targets results Hne. rewrite handle_spec. fold targets.
  destruct (files w !! BindServer.file_path g) as [text|] eqn:Hfile.
  - cbv zeta. fold results. destruct targets; [congruence|reflexivity].
  - destruct Hne. unfold targets, stored_targets, BindServer._load_servers.
    rewrite Hfile. reflexivity.
Qed.

Lemma handle_report_witness :
  (handle (three_outcomes (response [Int 1])) (u "g") three_bindings).1
  = join [LF; LF] [msg_timeout (u "k1"); msg_http (u "k2") 500].
Proof.
  assert (H := handle_report (three_outcomes (response [Int 1])) (u "g")
                 three_bindings).
  cbv zeta in H. rewrite H.
  - vm_compute. reflexivity.
  - vm_compute. discriminate.
Defined.

Lemma identity_has_target (servers : list (list str)) k a :
  Forall record_ok servers ->
  Exists (BindServer.same_identity k a) servers
  <-> exists port, (k, a, port) ∈ omap target_of servers.
Proof.
  intros Hok. rewrite Exists_exists. split.
  - intros (r & Hr & H0 & H1). rewrite Forall_forall in Hok.
    destruct (Hok r Hr) as [Hlen _].
    destruct r as [|k' [|a' more]]; simpl in Hlen; try lia.
    simpl in H0, H1. injection H0 as ->. injection H1 as ->.
    exists (head more). apply list_elem_of_omap. exists (k :: a :: more).
    split; [exact Hr|reflexivity].
  - intros (port & Hin). apply list_elem_of_omap in Hin as (r & Hr & Ht).
    exists r. split; [exact Hr|].
    destruct r as [|k' [|a' more]]; try discriminate.
    injection Ht as -> -> _. split; reflexivity.
Qed.

(** X11 — what Check finds is what the query asks for. The requests that
    one query command sends include a request with a given server key and
    account id exactly when [_check_server] answers, on the same files, that
    this binding exists. *)
Theorem checked_bindings_are_queried (net : network) (g : str) (w : world)
    (k a : str) :
  exists requests,
    sent (handle net g w).2 = sent w ++ requests
    /\ (BindServer._check_server (files w) g k a = msg_check true k a
        <-> {| req_id := a; req_key := k |} ∈ requests).
Proof.
  exists (map request_of (first_occurrences (stored_targets (files w) g))).
  split.
  - rewrite handle_spec.
    destruct (files w !! BindServer.file_path g) as [text|] eqn:Hfile.
    + cbv zeta. destruct (first_occurrences _); [rewrite app_nil_r|];
        reflexivity.
    + unfold stored_targets, BindServer._load_servers. rewrite Hfile.
      cbn [snd]. exact (eq_sym (app_nil_r (sent w))).
  - rewrite check_server_eq.
    assert (Hmsg : msg_check false k a <> msg_check true k a).
    { unfold msg_check. intros H. apply (f_equal head) in H.
      revert H. vm_compute. discriminate. }
    assert (Hbound : msg_check
                       (BindServer.already_bound k a
                          (BindServer._load_servers (files w) g)) k a
                     = msg_check true k a
                     <-> Exists (BindServer.same_identity k a)
                           (BindServer._load_servers (files w) g)).
    { rewrite <- already_bound_spec.
      destruct (BindServer.already_bound _ _ _).
      - split; intros _; reflexivity.
      - split; [intros H; destruct (Hmsg H)|intros H; discriminate H]. }
    rewrite Hbound.
    rewrite (identity_has_target _ k a (load_servers_ok (files w) g)).
    fold (stored_targets (files w) g). split.
    + intros (port & Hin). apply list_elem_of_fmap.
      exists (k, a, port). split; [reflexivity|].
      apply first_occurrences_elem, Hin.
    + intros Hin. apply list_elem_of_fmap in Hin as ([[k' a'] port] & Heq & Hin).
      unfold request_of in Heq. cbn [fst snd] in Heq. injection Heq as -> ->.
      exists port. apply first_occurrences_elem, Hin.
Qed.

(** X12 — failure reported by the service. When [Success] is missing or
    false in the body, the result is one line telling that the service
    returned a failure, whatever the rest of the body and the filter; for
    one server key that line differs from the line of an HTTP status, of a
    timeout, of a body that is not JSON and of an exception. *)
Theorem api_failure_line (k a : str) (d : dict) (port : option str)
    (status : Z) (class_name : str) :
  truthy (get d (u "Success") (Bool false)) = false ->
  _parse_servers k a (Obj d) port = inr [msg_api_failed k]
  /\ msg_api_failed k <> msg_http k status
  /\ msg_api_failed k <> msg_timeout k
  /\ msg_api_failed k <> msg_bad_json k
  /\ msg_api_failed k <> msg_exception k class_name.
Proof.
  intros Hfail. split; [|split; [|split; [|split]]].
  - unfold _parse_servers. rewrite Hfail. reflexivity.
  - unfold msg_api_failed, msg_http. intros H.
    apply app_inv_head, app_inv_head in H.
    apply (f_equal (take 7)) in H. revert H. vm_compute. discriminate.
  - unfold msg_api_failed, msg_timeout. intros H.
    apply (f_equal head) in H. revert H. vm_compute. discriminate.
  - unfold msg_api_failed, msg_bad_json. intros H.
    apply (f_equal head) in H. revert H. vm_compute. discriminate.
  - unfold msg_api_failed, msg_exception. intros H.
    apply (f_equal head) in H. revert H. vm_compute. discriminate.
Qed.

Lemma api_failure_line_witness :
  _parse_servers (u "k") (u "a")
    (Obj [(u "Servers", Arr [Obj []]); (u "Success", Int 0)]) (Some (u "7777"))
  = inr [msg_api_failed (u "k")].
Proof.
  refine (proj1 (api_failure_line (u "k") (u "a")
                   [(u "Servers", Arr [Obj []]); (u "Success", Int 0)]
                   (Some (u "7777")) 0 [] _)).
  vm_compute. reflexivity.
Defined.

(** X13 — a target that fails gives one line. Unless the reply has status
    200 and a body that the renderer turns into blocks, a target adds
    exactly one line to the report, so that no failure is silent and none
    ends the command. When the body is JSON but not an object, that line
    names [AttributeError]. *)
Theorem failing_target_one_line (k a : str) (port : option str) :
  (forall o,
     (forall data blocks, o = Reply 200 (Parsed data) ->
                          _parse_servers k a data port <> inr blocks) ->
     exists line, target_results (k, a, port) o = [line])
  /\ (forall data, (forall d, data <> Obj d) ->
      target_results (k, a, port) (Reply 200 (Parsed data))
      = [msg_exception k (u "AttributeError")]).
Proof.
  split.
  - intros o Hfail. destruct o as [|class_name|status b];
      cbn [target_results]; eauto.
    destruct (Z.eqb_spec status 200) as [->|Hne]; cbn [negb]; eauto.
    destruct b as [|data]; eauto.
    destruct (_parse_servers k a data port) as [e|blocks] eqn:Hparse; eauto.
    destruct (Hfail data blocks eq_refl Hparse).
  - intros data Hdata. cbn [target_results negb Z.eqb Pos.eqb].
    destruct data; try reflexivity. destruct (Hdata fields eq_refl).
Qed.

Lemma failing_target_one_line_witness :
  (exists line,
     target_results (u "k", u "a", None) (Reply 404 BadJson) = [line])
  /\ target_results (u "k", u "a", None) (Reply 200 (Parsed (Arr [])))
     = [msg_exception (u "k") (u "AttributeError")].
Proof.
  split.
  - apply (proj1 (failing_target_one_line (u "k") (u "a") None)).
    intros data blocks H. discriminate H.
  - apply (proj2 (failing_target_one_line (u "k") (u "a") None)).
    intros d H. discriminate H.
Defined.

End QueryCommand.

(** ** Rendering without filter, players, names *)

Section RenderMore.
Import CXServerAPI.




Lemma roster_lines_bad (l : list value) : forall j info,
  Exists (fun v => forall d, v <> Obj d) l ->
  roster_lines j l info = inl AttributeError.
Proof.
  induction l as [|v l IH]; intros j info Hbad; [inversion Hbad|].
  cbn [roster_lines]. destruct v as [| | | | | |d]; try reflexivity.
  apply Exists_cons in Hbad as [Hv|Hl]; [destruct (Hv d eq_refl)|].
  apply IH, Hl.
Qed.

(** X15 — only the first ten players are read. For an entry that is
    online with a non-empty player list: when the first ten players are
    objects, the block has their numbered lines, and the line of the
    remaining count when there are more than ten, whatever the players
    after the tenth are; when one of the first ten is not an object,
    rendering raises [AttributeError]. *)
Theorem roster_reads_first_ten (acc : str) (i : Z) (server : dict) (p : str)
    (ps : list value) :
  truthy (get server (u "Online") Null) = true ->
  get server (u "PlayersList") (Arr []) = Arr ps ->
  ps <> [] ->
  (forall ds : list dict, take 10 ps = Obj <$> ds ->
     render_block acc i server p
     = inr (join [LF]
              (info_lines acc i server p ++ [u "  🎮 玩家列表:"]
               ++ imap (fun n d => player_line (Z.of_nat n + 1) d) ds
               ++ (if (10 <? length ps)%nat
                   then [summary_line (Z.of_nat (length ps) - 10)]
                   else []))))
  /\ (Exists (fun v => forall d, v <> Obj d) (take 10 ps) ->
      render_block acc i server p = inl AttributeError).
Proof.
  intros Hon Hps Hne.
  assert (Htruthy : truthy (Arr ps) = true)
    by (destruct ps; [congruence|reflexivity]).
  split.
  - intros ds Hds. unfold render_block, roster.
    rewrite Hon, Hps, Htruthy. cbn [first_ten bind ret].
    rewrite Hds, roster_lines_objects. cbn [bind len].
    assert (Hnum : imap (fun n d => player_line (1 + Z.of_nat n) d) ds
                   = imap (fun n d => player_line (Z.of_nat n + 1) d) ds).
    { apply imap_ext. intros n d _. simpl. f_equal. lia. }
    rewrite Hnum.
    destruct (Nat.ltb_spec 10 (length ps)) as [Hlt|Hge].
    + destruct (Z.ltb_spec 10 (Z.of_nat (length ps))) as [_|Hle]; [|lia].
      cbn [bind]. unfold ret. rewrite <- !app_assoc. reflexivity.
    + destruct (Z.ltb_spec 10 (Z.of_nat (length ps))) as [Hlt|_]; [lia|].
      cbn [bind]. unfold ret. rewrite app_nil_r, <- !app_assoc. reflexivity.
  - intros Hbad. unfold render_block, roster.
    rewrite Hon, Hps, Htruthy. cbn [first_ten bind ret].
    rewrite roster_lines_bad by exact Hbad. reflexivity.
Qed.

Lemma roster_reads_first_ten_witness :
  let player := Obj [(u "nickname", Str (u "Bob"))] in
  let server (ps : list value) :=
    [(u "Online", Bool true); (u "PlayersList", Arr ps)] in
  (exists block,
     render_block (u "a") 1 (server (repeat player 10 ++ [Int 0])) [] = inr block)
  /\ render_block (u "a") 1 (server [player; Int 0]) [] = inl AttributeError.
Proof.
  intros player server. split.
  - eexists.
    refine (proj1 (roster_reads_first_ten (u "a") 1
                     (server (repeat player 10 ++ [Int 0])) []
                     (repeat player 10 ++ [Int 0]) _ _ _)
              (repeat [(u "nickname", Str (u "Bob"))] 10) _).
    + vm_compute. reflexivity.
    + vm_compute. reflexivity.
    + discriminate.
    + reflexivity.
  - refine (proj2 (roster_reads_first_ten (u "a") 1 (server [player; Int 0]) []
                     [player; Int 0] _ _ _) _).
    + vm_compute. reflexivity.
    + vm_compute. reflexivity.
    + discriminate.
    + apply Exists_cons. right. apply Exists_cons. left.
      intros d H. discriminate H.
Defined.

Lemma split_join_plain toks :
  Forall (fun t => is_token t = true) toks -> split (join [SP] toks) = toks.
Proof.
  intros H. transitivity (split (join [SP] toks ++ [SP])).
  - symmetry. apply split_from_space_end. reflexivity.
  - apply split_join_tokens; [exact H|reflexivity].
Qed.

Lemma extract_server_name_cases (info : value) :
  _extract_server_name info = u "未知服务器"
  \/ _extract_server_name info = u "名称解析失败"
  \/ exists text, _extract_server_name info = join [SP] (split text).
Proof.
  unfold _extract_server_name.
  destruct (truthy info); cbn [negb]; [|left; reflexivity]. right.
  destruct info; try (left; reflexivity).
  destruct (Base64.b64decode s); [left; reflexivity|right]. eauto.
Qed.

(** X16 — the shape of a name. Whatever [Info] is, the name returned has
    no white space at either end, its words are separated by single
    spaces, and it has no line break: splitting it and joining the words
    with a space gives the name back. *)
Theorem server_name_normalised (info : value) :
  join [SP] (split (_extract_server_name info)) = _extract_server_name info
  /\ no_newline (_extract_server_name info).
Proof.
  destruct (extract_server_name_cases info) as [->|[->|[text ->]]].
  - split; [vm_compute; reflexivity|].
    apply (bool_decide_unpack _). vm_compute. exact I.
  - split; [vm_compute; reflexivity|].
    apply (bool_decide_unpack _). vm_compute. exact I.
  - split.
    + rewrite split_join_plain by apply split_tokens. reflexivity.
    + apply join_tokens_no_newline, split_tokens.
Qed.

(** X17 — the two placeholders. An [Info] that is missing, empty or
    otherwise false gives the placeholder of an unknown server; an [Info]
    that is true but is not text, and a text with a character outside
    ASCII, give the placeholder of a failed decoding, and no exception. *)
Theorem server_name_placeholders :
  (forall v, truthy v = false -> _extract_server_name v = u "未知服务器")
  /\ (forall v, truthy v = true -> (forall s, v <> Str s) ->
       _extract_server_name v = u "名称解析失败")
  /\ (forall s, Exists (fun c => 128 <= c) s ->
       _extract_server_name (Str s) = u "名称解析失败").
Proof.
  split; [|split].
  - intros v Hv. unfold _extract_server_name. rewrite Hv. reflexivity.
  - intros v Hv Hs. unfold _extract_server_name. rewrite Hv. cbn [negb].
    destruct v; try reflexivity. destruct (Hs s eq_refl).
  - intros s Hs.
    assert (Hascii : forallb (fun c => c <? 128) s = false).
    { induction Hs as [c s Hc|c s Hs IH]; cbn [forallb].
      - apply N.ltb_ge in Hc. rewrite Hc. reflexivity.
      - rewrite IH. apply andb_false_r. }
    assert (Htruthy : truthy (Str s) = true)
      by (destruct s; [inversion Hs|reflexivity]).
    unfold _extract_server_name. rewrite Htruthy. cbn [negb].
    unfold Base64.b64decode. rewrite Hascii. reflexivity.
Qed.

Lemma server_name_placeholders_witness :
  _extract_server_name (get [] (u "Info") (Str [])) = u "未知服务器"
  /\ _extract_server_name (Int 7) = u "名称解析失败"
  /\ _extract_server_name (Str (u "服务器")) = u "名称解析失败".
Proof.
  split; [|split].
  - apply (proj1 server_name_placeholders). vm_compute. reflexivity.
  - apply (proj1 (proj2 server_name_placeholders)); [vm_compute; reflexivity|].
    intros s H. discriminate H.
  - apply (proj2 (proj2 server_name_placeholders)).
    apply (bool_decide_unpack _). vm_compute. exact I.
Defined.

Lemma sub_from_sublist r s : forall skip, Re.sub_from r skip s `sublist_of` s.
Proof.
  induction s as [|c s IH]; intros skip; [constructor|].
  cbn [Re.sub_from]. destruct skip as [|n]; [|apply sublist_cons, IH].
  destruct (Re.match_at r (c :: s) Some) as [rest|];
    [|apply sublist_skip, IH].
  destruct (length (c :: s) - length rest)%nat;
    [apply sublist_skip, IH|apply sublist_cons, IH].
Qed.

(** X18 — removing tags. The text after [tag_regex.sub] is the text
    before with some characters left out, in the same order; and a text
    with no [<] and no [[] is left as it is. *)
Theorem tag_removal_only_deletes (s : str) :
  Re.sub_empty tag_regex s `sublist_of` s
  /\ (Forall (fun c => c <> 60 /\ c <> 91) s -> Re.sub_empty tag_regex s = s).
Proof.
  split; [apply sub_from_sublist|].
  unfold Re.sub_empty. induction 1 as [|c s [H60 H91] Hs IH]; [reflexivity|].
  cbn [Re.sub_from]. unfold tag_regex at 1. cbn [Re.match_at].
  destruct (N.eqb_spec c 60); [contradiction|].
  destruct (N.eqb_spec c 91); [contradiction|].
  f_equal. exact IH.
Qed.

Lemma tag_removal_only_deletes_witness :
  Re.sub_empty tag_regex (u "Plain name 1") = u "Plain name 1".
Proof.
  apply (proj2 (tag_removal_only_deletes (u "Plain name 1"))).
  apply (bool_decide_unpack _). vm_compute. exact I.
Defined.

End RenderMore.
